(** * The listener registry of ember-metal (packages/ember-metal/lib/events.js)

    A shallow embedding of the event system: the per-owner listener
    directories with their prototype chains, the action sets
    ([targets] / [methods] arrays), and the operations [addListener],
    [removeListener], [suspendListener], [suspendListeners],
    [watchedEvents], [sendEvent], [hasListeners], [listenersFor],
    [targetSetUnion] and [targetSetDiff].

    JavaScript objects are mutable and shared, so the embedding threads an
    explicit heap through every operation.  An operation either returns or
    throws; both outcomes carry the heap as the operation left it. *)

From stdpp Require Import base option list strings gmap.

Open Scope string_scope.
Open Scope list_scope.

(** ** JavaScript values seen by the registry *)

Inductive value :=
| VUndef
| VNull
| VObj (o : nat)
| VFun (f : nat)
| VStr (s : string).

#[global] Instance value_eq_dec : EqDecision value.
Proof. solve_decision. Defined.

(** [!!v] of JavaScript. *)
Definition truthy (v : value) : bool :=
  match v with
  | VUndef | VNull => false
  | VStr s => negb (bool_decide (s = ""))
  | VObj _ | VFun _ => true
  end.

(** ['function' === typeof v]. *)
Definition is_function (v : value) : bool :=
  match v with VFun _ => true | _ => false end.

(** ** Arrays *)

(** [l.indexOf(x)] with [===]; [None] stands for [-1]. *)
Fixpoint indexOf (x : value) (l : list value) : option nat :=
  match l with
  | [] => None
  | y :: r => if decide (y = x) then Some 0 else S <$> indexOf x r
  end.

(** [l.splice(i, 1)] for a JavaScript index [i]: a non-negative [i] removes
    the element at [i] when there is one; [-1] counts from the end and
    removes the last element when there is one. *)
Definition splice1 (i : option nat) (l : list value) : list value :=
  match i with
  | Some n => delete n l
  | None => delete (length l - 1) l
  end.

(** [l[i]] on an array of values: [undefined] out of range. *)
Definition nth_value (l : list value) (i : nat) : value :=
  default VUndef (l !! i).

(** ** Objects of the registry *)

(** A heap location. *)
Definition loc := nat.

(** A listener directory ([meta.listeners]): a JavaScript object with an
    optional prototype (set by [o_create]), an optional [__ember_source__]
    marker and one property per event name, in insertion order.  The value
    of an event property is [null] ([None]) or a reference to an actions
    object.  The reserved key [__ember_source__] is kept in its own field,
    so event names range over the other keys; names that [Object.prototype]
    defines are not event names either (see [event_name]). *)
Record dir := Dir {
  d_proto : option loc;
  d_source : option value;
  d_events : list (string * option loc)
}.

(** An actions object ([targetSet]): [__ember_source__], [targets] and
    [methods], each possibly absent.  The [targets] and [methods] arrays
    are only reached through their actions object and are stored in it;
    a row of [methods] is an array that [iterateSet] and [suspendListener]
    hold across calls, so it is a heap cell of its own and [a_methods]
    lists the rows' locations; [None] in that list is an index that holds
    no row ([undefined]). *)
Record actions := Actions {
  a_source : option value;
  a_targets : option (list value);
  a_methods : option (list (option loc))
}.

(** Modelled from the spec: [Ember.meta(obj, writable)] (ember-metal/utils,
    not in this file) is the per-object, lazily created storage slot; the
    registry only uses its [listeners] field, so [h_meta] maps an owner to
    the directory that [meta(obj).listeners] reads, and two owners share a
    directory when their slots hold the same location. *)
Record heap := Heap {
  h_dirs : list dir;
  h_acts : list actions;
  h_rows : list (list value);
  h_meta : gmap nat loc
}.

Definition empty_heap : heap := Heap [] [] [] ∅.

(** ** Outcomes *)

Inductive exn :=
| TypeError
| AssertionFailed
| Thrown (v : value).

Inductive res (A : Type) :=
| Ret (a : A) (h : heap)
| Throw (e : exn) (h : heap).
Arguments Ret {A} a h.
Arguments Throw {A} e h.

Definition M (A : Type) : Type := heap → res A.

Definition ret {A} (a : A) : M A := fun h => Ret a h.
Definition throw {A} (e : exn) : M A := fun h => Throw e h.
Definition bind {A B} (m : M A) (k : A → M B) : M B :=
  fun h => match m h with
           | Ret a h' => k a h'
           | Throw e h' => Throw e h'
           end.

Notation "'do' x <- m ; k" := (bind m (fun x => k))
  (at level 10, x pattern, m at level 100, k at level 200).
Notation "m ;; k" := (bind m (fun _ => k))
  (at level 100, k at level 200, right associativity).

(** [try { m } finally { f }]: [f] runs on both exits; if [f] itself throws,
    its exception replaces the outcome of [m]. *)
Definition try_finally {A} (m : M A) (f : M unit) : M A :=
  fun h => match m h with
           | Ret a h' => match f h' with
                         | Ret _ h'' => Ret a h''
                         | Throw e h'' => Throw e h''
                         end
           | Throw e h' => match f h' with
                           | Ret _ h'' => Throw e h''
                           | Throw e' h'' => Throw e' h''
                           end
           end.

Definition heap_of {A} (r : res A) : heap :=
  match r with Ret _ h => h | Throw _ h => h end.

Definition returned {A} (r : res A) : option A :=
  match r with Ret a _ => Some a | Throw _ _ => None end.

(** ** Heap access *)

Definition get_heap : M heap := fun h => Ret h h.

Definition alloc_dir (d : dir) : M loc :=
  fun h => Ret (length (h_dirs h))
               (Heap (h_dirs h ++ [d]) (h_acts h) (h_rows h) (h_meta h)).

Definition alloc_acts (a : actions) : M loc :=
  fun h => Ret (length (h_acts h))
               (Heap (h_dirs h) (h_acts h ++ [a]) (h_rows h) (h_meta h)).

Definition alloc_row (r : list value) : M loc :=
  fun h => Ret (length (h_rows h))
               (Heap (h_dirs h) (h_acts h) (h_rows h ++ [r]) (h_meta h)).

(** Reading through a reference that holds no object is JavaScript's
    property access on [undefined]. *)
Definition read_acts (a : loc) : M actions :=
  fun h => match h_acts h !! a with
           | Some x => Ret x h
           | None => Throw TypeError h
           end.

Definition write_acts (a : loc) (x : actions) : M unit :=
  fun h => Ret tt (Heap (h_dirs h) (<[a := x]> (h_acts h)) (h_rows h) (h_meta h)).

Definition read_row (r : loc) : M (list value) :=
  fun h => match h_rows h !! r with
           | Some x => Ret x h
           | None => Throw TypeError h
           end.

Definition write_row (r : loc) (x : list value) : M unit :=
  fun h => Ret tt (Heap (h_dirs h) (h_acts h) (<[r := x]> (h_rows h)) (h_meta h)).

Definition set_meta_listeners (obj : nat) (d : loc) : M unit :=
  fun h => Ret tt (Heap (h_dirs h) (h_acts h) (h_rows h) (<[obj := d]> (h_meta h))).

(** ** Directory properties *)

Fixpoint assoc_get {V} (k : string) (l : list (string * V)) : option V :=
  match l with
  | [] => None
  | (k', v) :: r => if decide (k' = k) then Some v else assoc_get k r
  end.

(** Assignment to an own property: in place when the key exists, appended
    otherwise (insertion order is the [for-in] order). *)
Fixpoint assoc_set {V} (k : string) (v : V) (l : list (string * V)) : list (string * V) :=
  match l with
  | [] => [(k, v)]
  | (k', v') :: r =>
      if decide (k' = k) then (k, v) :: r else (k', v') :: assoc_set k v r
  end.

(** [listeners[eventName]] through the prototype chain.  [None] is
    [undefined], [Some None] is [null].  Prototypes are allocated before
    the objects created from them, so [S d] steps reach the end of any
    chain that starts at [d]. *)
Fixpoint dir_get_fuel (fuel : nat) (ds : list dir) (d : loc) (k : string)
  : option (option loc) :=
  match fuel with
  | 0 => None
  | S fuel' =>
      match ds !! d with
      | None => None
      | Some D =>
          match assoc_get k (d_events D) with
          | Some v => Some v
          | None =>
              match d_proto D with
              | Some p => dir_get_fuel fuel' ds p k
              | None => None
              end
          end
      end
  end.

Definition dir_get (ds : list dir) (d : loc) (k : string) : option (option loc) :=
  dir_get_fuel (S d) ds d k.

(** The keys that [for (k in listeners)] visits, apart from
    [__ember_source__]: own keys in insertion order, then the prototype's
    keys that are not shadowed.  (Engines list the keys that are array
    indices first; the model keeps the insertion order for them too, and
    [watchedEvents] is only used for membership.) *)
Fixpoint dir_keys_fuel (fuel : nat) (ds : list dir) (d : loc) : list string :=
  match fuel with
  | 0 => []
  | S fuel' =>
      match ds !! d with
      | None => []
      | Some D =>
          let own := (d_events D).*1 in
          match d_proto D with
          | Some p =>
              own ++ filter (fun k => k ∉ own) (dir_keys_fuel fuel' ds p)
          | None => own
          end
      end
  end.

Definition dir_keys (ds : list dir) (d : loc) : list string :=
  dir_keys_fuel (S d) ds d.

(** The truth value of [listeners[k]]: an actions object is truthy,
    [null] and [undefined] are not. *)
Definition entry_truthy (v : option (option loc)) : bool :=
  match v with
  | Some (Some _) => true
  | _ => false
  end.

(** [listeners[k] = v] on directory [d]. *)
Definition dir_set (d : loc) (k : string) (v : option loc) : M unit :=
  fun h => match h_dirs h !! d with
           | Some D =>
               Ret tt (Heap (<[d := Dir (d_proto D) (d_source D) (assoc_set k v (d_events D))]> (h_dirs h))
                            (h_acts h) (h_rows h) (h_meta h))
           | None => Throw TypeError h
           end.

(** [__ember_source__] through the prototype chain. *)
Fixpoint dir_source_fuel (fuel : nat) (ds : list dir) (d : loc) : option value :=
  match fuel with
  | 0 => None
  | S fuel' =>
      match ds !! d with
      | None => None
      | Some D =>
          match d_source D with
          | Some v => Some v
          | None =>
              match d_proto D with
              | Some p => dir_source_fuel fuel' ds p
              | None => None
              end
          end
      end
  end.

Definition dir_source (ds : list dir) (d : loc) : option value :=
  dir_source_fuel (S d) ds d.

(** ** Access to the arrays of an actions object *)

(** [actions.targets] used as an array: a [TypeError] when absent. *)
Definition get_targets (a : loc) : M (list value) :=
  do A <- read_acts a;
  match a_targets A with
  | Some ts => ret ts
  | None => throw TypeError
  end.

Definition get_methods (a : loc) : M (list (option loc)) :=
  do A <- read_acts a;
  match a_methods A with
  | Some ms => ret ms
  | None => throw TypeError
  end.

Definition set_targets (a : loc) (ts : list value) : M unit :=
  do A <- read_acts a;
  write_acts a (Actions (a_source A) (Some ts) (a_methods A)).

Definition set_methods (a : loc) (ms : list (option loc)) : M unit :=
  do A <- read_acts a;
  write_acts a (Actions (a_source A) (a_targets A) (Some ms)).

(** [ms[i]]: [undefined] ([None]) out of range and at an index without row. *)
Definition nth_row (ms : list (option loc)) (i : nat) : option loc :=
  mjoin (ms !! i).

(** [ms[i] = r]: JavaScript extends the array when [i] is past its end. *)
Definition set_nth_row (ms : list (option loc)) (i : nat) (r : loc) : list (option loc) :=
  if decide (i < length ms) then <[i := Some r]> ms
  else ms ++ replicate (i - length ms) None ++ [Some r].

(** [actions.targets = actions.targets || []] and the same for [methods]. *)
Definition default_arrays (a : loc) : M unit :=
  do A <- read_acts a;
  write_acts a (Actions (a_source A) (Some (default [] (a_targets A)))
                        (Some (default [] (a_methods A)))).

(** The loop of [actionsFor] that fills [methodsCopy]:
    [actions.methods[i].slice()] for every index. *)
Fixpoint copy_rows (ms : list (option loc)) : M (list (option loc)) :=
  match ms with
  | [] => ret []
  | m :: rest =>
      do row <- match m with
                | Some r => read_row r
                | None => throw TypeError
                end;
      do r' <- alloc_row row;
      do rest' <- copy_rows rest;
      ret (Some r' :: rest')
  end.

(** ** The directory manager *)

(** [actionsFor(obj, eventName, target, true)]; [target] is not used by the
    source function.  The slot for [eventName] is assigned before the
    source marker of the actions object is compared with [obj]. *)
Definition actionsFor (obj : nat) (eventName : string) : M loc :=
  do h <- get_heap;
  do d <- match h_meta h !! obj with
          | Some d => ret d
          | None => do d <- alloc_dir (Dir None None []);
                    set_meta_listeners obj d ;; ret d
          end;
  do h <- get_heap;
  do a <- match dir_get (h_dirs h) d eventName with
          | Some (Some a) => ret a
          | _ => alloc_acts (Actions (Some (VObj obj)) None None)
          end;
  dir_set d eventName (Some a) ;;
  do A <- read_acts a;
  if decide (a_source A = Some (VObj obj)) then
    default_arrays a ;; ret a
  else
    do d' <- alloc_dir (Dir (Some d) (Some (VObj obj)) []);
    set_meta_listeners obj d' ;;
    do ms <- get_methods a;
    do methodsCopy <- copy_rows ms;
    do ts <- get_targets a;
    do a' <- alloc_acts (Actions None (Some ts) (Some methodsCopy));
    dir_set d' eventName (Some a') ;;
    ret a'.

(** [targetSetFor(obj, eventName)]; [None] is the [false] it returns when
    the directory or the entry is missing or the entry is [null]. *)
Definition targetSetFor (obj : nat) (eventName : string) (h : heap) : option loc :=
  match h_meta h !! obj with
  | None => None
  | Some d =>
      match dir_get (h_dirs h) d eventName with
      | Some (Some a) => Some a
      | _ => None
      end
  end.

(** Modelled from the spec: [metaPath(obj, ['listeners'], true)]
    (ember-metal/utils, not in this file) returns a directory that is
    private to [obj]: it creates one marked with [obj] when the slot is
    empty, and forks the current one with [o_create], marking the fork
    with [obj], when the current one carries another source marker. *)
Definition metaPath_listeners (obj : nat) : M loc :=
  do h <- get_heap;
  match h_meta h !! obj with
  | None =>
      do d <- alloc_dir (Dir None (Some (VObj obj)) []);
      set_meta_listeners obj d ;; ret d
  | Some d =>
      if decide (dir_source (h_dirs h) d = Some (VObj obj)) then ret d
      else
        do d' <- alloc_dir (Dir (Some d) (Some (VObj obj)) []);
        set_meta_listeners obj d' ;; ret d'
  end.

(** Modelled from the spec: [Ember.assert(msg, !!obj && !!eventName)]
    (ember-metal/core, not in this file) fails fast on a missing event
    name; the owner is an object and is always truthy. *)
Definition assert_event (eventName : string) : M unit :=
  if decide (eventName = "") then throw AssertionFailed else ret tt.

(** ** Event names *)

(** The names that every plain object answers to through
    [Object.prototype] (ES5 15.2.4, with the legacy accessors that the
    engines add).  A directory and [SKIP_PROPERTIES] are plain objects, so
    reading one of these names from them finds a function of
    [Object.prototype] unless an own property shadows it. *)
Definition object_prototype_names : list string :=
  ["constructor"; "toString"; "toLocaleString"; "valueOf";
   "hasOwnProperty"; "isPrototypeOf"; "propertyIsEnumerable"; "__proto__";
   "__defineGetter__"; "__defineSetter__"; "__lookupGetter__";
   "__lookupSetter__"].

(** [SKIP_PROPERTIES[k]] as a truth value, for
    [SKIP_PROPERTIES = { __ember_source__: true }]: the own key, and the
    names that the object inherits. *)
Definition SKIP_PROPERTIES (k : string) : bool :=
  bool_decide (k ∈ "__ember_source__" :: object_prototype_names).

(** Names that some engines define on [Object.prototype] besides the
    ones above. *)
Definition engine_specific_names : list string :=
  ["toSource"; "watch"; "unwatch"].

(** The event names that a directory of the model stores as the source
    stores them.  The empty name fails the assertion of the entry points;
    [__ember_source__] is the marker of a directory, not an event of it;
    and under a name of [Object.prototype] the source reads a function
    where the model of a directory ([dir_get]) reads [undefined].  The
    theorems about events that are not registered yet are stated for
    these names. *)
Definition event_name (e : string) : Prop :=
  e ≠ "" ∧ SKIP_PROPERTIES e = false
  ∧ bool_decide (e ∈ engine_specific_names) = false.

(** ** Iteration *)

Definition action : Type := value * value.

Section iterate.
Context {St : Type}.
(** The visitor, with the variables its closure captures as [St]; the
    boolean is [callback(...) === true]. *)
Variable callback : action → St → M (bool * St).

(** The inner loop of [iterateSet], from index [j - 1] down to [0];
    the row is read again at every step. *)
Fixpoint iterate_row (methods : loc) (target : value) (j : nat) (s : St)
  : M (bool * St) :=
  match j with
  | 0 => ret (false, s)
  | S j' =>
      do row <- read_row methods;
      let method := nth_value row j' in
      if truthy method then
        do r <- callback (target, method) s;
        if r.1 then ret (true, r.2)
        else iterate_row methods target j' r.2
      else iterate_row methods target j' s
  end.

(** The outer loop, for [n] more indices from [i]; [actions.targets] and
    [actions.methods] are read again at every step. *)
Fixpoint iterate_targets (a : loc) (n i : nat) (s : St) : M (bool * St) :=
  match n with
  | 0 => ret (false, s)
  | S n' =>
      do ts <- get_targets a;
      do ms <- get_methods a;
      let target := nth_value ts i in
      match nth_row ms i with
      | None => throw TypeError
      | Some methods =>
          do row <- read_row methods;
          do r <- iterate_row methods target (length row) s;
          if r.1 then ret (true, r.2)
          else iterate_targets a n' (S i) r.2
      end
  end.

(** [iterateSet(actions, callback)]; [None] is [false]. *)
Definition iterateSet (acts : option loc) (s : St) : M (bool * St) :=
  match acts with
  | None => ret (false, s)
  | Some a =>
      do A <- read_acts a;
      match a_targets A with
      | None => ret (false, s)
      | Some ts => iterate_targets a (length ts) 0 s
      end
  end.
End iterate.

(** ** The host program *)

(** What the registry needs from the objects and functions of the program
    that uses it: how a function value runs ([f.apply(this, args)]), what a
    property read on an object yields ([target[method]]), the owner-side
    hooks when the owner has them as functions, and which object is [Ember]
    itself.  The properties of the program's objects are not in the heap
    of the model: [prop] is fixed for a host, so a method that is
    reassigned between two dispatches is outside of it. *)
Record host := Host {
  call : nat → value → list value → M value;
  prop : value → string → value;
  didAddListener : nat → option (string → value → value → M unit);
  didRemoveListener : nat → option (string → value → value → M unit);
  sendEvent_hook : nat → option (string → option (list value) → M unit);
  Ember : nat
}.

(** [if (!method && 'function' === typeof target) { method = target; target = null; }] *)
Definition shuffle (target method : value) : value * value :=
  if negb (truthy method) && is_function target then (VNull, target)
  else (target, method).

(** [row.push(x)] on a row of methods. *)
Definition push_row (r : loc) (x : value) : M unit :=
  do row <- read_row r;
  write_row r (row ++ [x]).

(** [actions.targets.push(target); actions.methods.push([method]);] *)
Definition push_target (a : loc) (target method : value) : M unit :=
  do ts <- get_targets a;
  set_targets a (ts ++ [target]) ;;
  do ms <- get_methods a;
  do r <- alloc_row [method];
  set_methods a (ms ++ [Some r]).

(** ** Set algebra *)

(** [targetSetUnion(obj, eventName, actions)] *)
Definition targetSetUnion (obj : nat) (eventName : string) (acc : loc) : M unit :=
  default_arrays acc ;;
  do h <- get_heap;
  iterateSet
    (fun (act : action) (_ : unit) =>
       do ts <- get_targets acc;
       match indexOf act.1 ts with
       | Some i =>
           do ms <- get_methods acc;
           match nth_row ms i with
           | None => throw TypeError
           | Some r =>
               do row <- read_row r;
               match indexOf act.2 row with
               | None => push_row r act.2 ;; ret (false, tt)
               | Some _ => ret (false, tt)
               end
           end
       | None => push_target acc act.1 act.2 ;; ret (false, tt)
       end)
    (targetSetFor obj eventName h) tt ;;
  ret tt.

(** [addAction(actions, action)] *)
Definition addAction (a : loc) (act : action) : M unit :=
  do ts <- get_targets a;
  do ms <- get_methods a;
  let targetMethods := indexOf act.1 ts ≫= nth_row ms in
  match targetMethods with
  | Some r =>
      do row <- read_row r;
      match indexOf act.2 row with
      | None => push_row r act.2
      | Some _ => push_target a act.1 act.2
      end
  | None => push_target a act.1 act.2
  end.

(** [targetSetDiff(obj, eventName, actions)]; returns [diffActions]. *)
Definition targetSetDiff (obj : nat) (eventName : string) (acc : loc) : M loc :=
  default_arrays acc ;;
  do diffActions <- alloc_acts (Actions None (Some []) (Some []));
  do h <- get_heap;
  iterateSet
    (fun (act : action) (_ : unit) =>
       do ts <- get_targets acc;
       do ms <- get_methods acc;
       let targetMethods := indexOf act.1 ts ≫= nth_row ms in
       do present <- match targetMethods with
                     | Some r => do row <- read_row r;
                                 ret (match indexOf act.2 row with
                                      | Some _ => true
                                      | None => false
                                      end)
                     | None => ret false
                     end;
       if present : bool then ret (false, tt)
       else addAction acc act ;; addAction diffActions act ;; ret (false, tt))
    (targetSetFor obj eventName h) tt ;;
  ret diffActions.

Section registry.
Variable W : host.

(** [invokeAction(action, params, sender)] *)
Definition invokeAction (act : action) (params : option (list value))
    (sender : value) : M unit :=
  let target := if truthy act.1 then act.1 else sender in
  let method := match act.2 with
                | VStr s => prop W target s
                | m => m
                end in
  match method with
  | VFun f => call W f target (default [] params) ;; ret tt
  | _ => throw TypeError
  end.

(** [addListener(obj, eventName, target, method)] *)
Definition addListener (obj : nat) (eventName : string) (target method : value)
  : M unit :=
  assert_event eventName ;;
  let (target, method) := shuffle target method in
  do a <- actionsFor obj eventName;
  do ts <- get_targets a;
  match indexOf target ts with
  | Some i =>
      do ms <- get_methods a;
      do r <- match nth_row ms i with
              | Some r => ret r
              | None => do r <- alloc_row [];
                        set_methods a (set_nth_row ms i r) ;; ret r
              end;
      do row <- read_row r;
      match indexOf method row with
      | None => push_row r method
      | Some _ => ret tt
      end
  | None => push_target a target method
  end ;;
  match didAddListener W obj with
  | Some hook => hook eventName target method
  | None => ret tt
  end.

(** The inner function [_removeListener(target, method)] of
    [removeListener].  [targetMethods] is [None] when it is the fresh
    [[]] of [actions.methods[targetIndex] || []]. *)
Definition _removeListener (obj : nat) (eventName : string) (target method : value)
  : M unit :=
  do a <- actionsFor obj eventName;
  do ts <- get_targets a;
  do ms <- get_methods a;
  let targetIndex := indexOf target ts in
  let targetMethods := targetIndex ≫= nth_row ms in
  do row <- match targetMethods with
            | Some r => read_row r
            | None => ret []
            end;
  do row' <- match indexOf method row, targetMethods with
             | Some j, Some r => write_row r (delete j row) ;; ret (delete j row)
             | _, _ => ret row
             end;
  (if decide (length row' = 0) then
     do ts <- get_targets a;
     set_targets a (splice1 targetIndex ts)
   else ret tt) ;;
  match didRemoveListener W obj with
  | Some hook => hook eventName target method
  | None => ret tt
  end.

(** The visitor that [removeListener] passes to [iterateSet] when no
    method is given. *)
Definition remove_visit (obj : nat) (eventName : string)
  : action → unit → M (bool * unit) :=
  fun act _ => (_removeListener obj eventName act.1 act.2 ;; ret (false, tt)).

(** [removeListener(obj, eventName, target, method)] *)
Definition removeListener (obj : nat) (eventName : string) (target method : value)
  : M unit :=
  assert_event eventName ;;
  let (target, method) := shuffle target method in
  if truthy method then _removeListener obj eventName target method
  else
    do h <- get_heap;
    iterateSet (remove_visit obj eventName) (targetSetFor obj eventName h) tt ;;
    ret tt.

(** [callback.call(target)] *)
Definition call_callback (callback target : value) : M value :=
  match callback with
  | VFun f => call W f target []
  | _ => throw TypeError
  end.

(** [suspendListener(obj, eventName, target, method, callback)] *)
Definition suspendListener (obj : nat) (eventName : string)
    (target method callback : value) : M value :=
  let (target, method) := shuffle target method in
  do a <- actionsFor obj eventName;
  do ts <- get_targets a;
  do ms <- get_methods a;
  match indexOf target ts ≫= nth_row ms with
  | None => throw TypeError
  | Some targetMethods =>
      do row <- read_row targetMethods;
      do act <- match indexOf method row with
                | Some j => write_row targetMethods (delete j row) ;;
                            ret (nth_value row j)
                | None => ret VUndef
                end;
      try_finally
        (call_callback callback target)
        (if truthy act then push_row targetMethods act else ret tt)
  end.

(** The first loop of [suspendListeners]; returns [removedMethods] and
    [targetMethodArrays]. *)
Fixpoint suspend_loop (obj : nat) (eventNames : list string) (target method : value)
    (removedMethods : list value) (targetMethodArrays : list loc)
  : M (list value * list loc) :=
  match eventNames with
  | [] => ret (removedMethods, targetMethodArrays)
  | eventName :: rest =>
      do a <- actionsFor obj eventName;
      do ts <- get_targets a;
      do ms <- get_methods a;
      match indexOf target ts ≫= nth_row ms with
      | None => throw TypeError
      | Some targetMethods =>
          do row <- read_row targetMethods;
          do removed <- match indexOf method row with
                        | Some j => write_row targetMethods (delete j row) ;;
                                    ret (removedMethods ++ [nth_value row j])
                        | None => ret removedMethods
                        end;
          suspend_loop obj rest target method removed
                       (targetMethodArrays ++ [targetMethods])
      end
  end.

(** The loop of the [finally] block of [suspendListeners], from index [i]:
    [targetMethodArrays[i].push(removedMethods[i])]. *)
Fixpoint restore_loop (removedMethods : list value) (targetMethodArrays : list loc)
    (i : nat) : M unit :=
  match removedMethods with
  | [] => ret tt
  | m :: rest =>
      match targetMethodArrays !! i with
      | Some r => push_row r m ;; restore_loop rest targetMethodArrays (S i)
      | None => throw TypeError
      end
  end.

(** [suspendListeners(obj, eventNames, target, method, callback)] *)
Definition suspendListeners (obj : nat) (eventNames : list string)
    (target method callback : value) : M value :=
  let (target, method) := shuffle target method in
  do p <- suspend_loop obj eventNames target method [] [];
  try_finally (call_callback callback target) (restore_loop p.1 p.2 0).

(** [watchedEvents(obj)] *)
Definition watchedEvents (obj : nat) (h : heap) : list string :=
  match h_meta h !! obj with
  | None => []
  | Some d =>
      filter (fun k => SKIP_PROPERTIES k = false
                       ∧ entry_truthy (dir_get (h_dirs h) d k) = true)
             (dir_keys (h_dirs h) d)
  end.

(** [sendEvent(obj, eventName, params, targetSet)].  The source returns
    [true]; the model returns in its place the actions that this call
    handed to [invokeAction], in the order of the calls. *)
Definition sendEvent (obj : nat) (eventName : string) (params : option (list value))
    (targetSet : option loc) : M (list action) :=
  (if decide (obj ≠ Ember W) then
     match sendEvent_hook W obj with
     | Some hook => hook eventName params
     | None => ret tt
     end
   else ret tt) ;;
  do h <- get_heap;
  let targetSet := match targetSet with
                   | Some a => Some a
                   | None => targetSetFor obj eventName h
                   end in
  do r <- iterateSet
            (fun (act : action) (log : list action) =>
               invokeAction act params (VObj obj) ;; ret (false, log ++ [act]))
            targetSet [];
  ret r.2.

(** [hasListeners(obj, eventName)] *)
Definition hasListeners (obj : nat) (eventName : string) : M bool :=
  do h <- get_heap;
  do r <- iterateSet (fun (_ : action) (_ : unit) => ret (true, tt))
                     (targetSetFor obj eventName h) tt;
  if r.1 then ret true
  else
    do set <- metaPath_listeners obj;
    dir_set set eventName None ;;
    ret false.

(** [listenersFor(obj, eventName)] *)
Definition listenersFor (obj : nat) (eventName : string) : M (list action) :=
  do h <- get_heap;
  do r <- iterateSet (fun (act : action) (out : list action) =>
                        ret (false, out ++ [act]))
                     (targetSetFor obj eventName h) [];
  ret r.2.
End registry.

(** ** Observations and invariants *)

(** The heap an operation leaves, whatever its outcome. *)
Definition after {A} (m : M A) (h : heap) : heap := heap_of (m h).

(** The pairs of an actions object, row by row and, within a row, in the
    order of the row. *)
Definition pairs_of (h : heap) (a : loc) : list action :=
  match h_acts h !! a with
  | Some (Actions _ (Some ts) (Some ms)) =>
      mjoin (zip_with (fun t m =>
                         match m ≫= (fun r => h_rows h !! r) with
                         | Some row => (fun x => (t, x)) <$> row
                         | None => []
                         end) ts ms)
  | _ => []
  end.

(** The invariants of an action set: the two arrays are aligned index for
    index, every index of [methods] holds a row, a target has one row and a
    method occurs once in a row. *)
Definition action_set_ok (h : heap) (a : loc) : bool :=
  match h_acts h !! a with
  | Some (Actions _ (Some ts) (Some ms)) =>
      bool_decide (length ts = length ms)
      && bool_decide (NoDup ts)
      && forallb (fun m => match m ≫= (fun r => h_rows h !! r) with
                           | Some row => bool_decide (NoDup row)
                           | None => false
                           end) ms
  | _ => false
  end.

(** The event [e] of owner [o] resolves to the actions object [a]. *)
Definition entry (ds : list dir) (meta : gmap nat loc) (o : nat) (e : string)
    (a : loc) : Prop :=
  ∃ d, meta !! o = Some d ∧ dir_get ds d e = Some (Some a).

(** Owner [o] has no actions object for [e]: no directory yet, or a
    directory in which [e] resolves to nothing or to [null].  (This is
    less than: no listener is listed; an actions object that has been
    emptied is an entry.) *)
Definition no_entry (ds : list dir) (meta : gmap nat loc) (o : nat) (e : string)
  : Prop :=
  match meta !! o with
  | None => True
  | Some d => is_Some (ds !! d) ∧ entry_truthy (dir_get ds d e) = false
  end.

(** The actions object [a] is the one of owner [o] for [e], marked with
    [o], and holds the arrays [ts] and [ms]. *)
Definition holds (h : heap) (o : nat) (e : string) (a : loc)
    (ts : list value) (ms : list (option loc)) : Prop :=
  entry (h_dirs h) (h_meta h) o e a
  ∧ h_acts h !! a = Some (Actions (Some (VObj o)) (Some ts) (Some ms)).

(** The row that [_removeListener] leaves when it is asked to remove [m]
    from [row]. *)
Definition removed_row (m : value) (row : list value) : list value :=
  match indexOf m row with
  | Some j => delete j row
  | None => row
  end.

(** A well-formed action set as [addListener] builds it: aligned arrays,
    no target twice, no [undefined] target, every index of [methods] with a
    row of its own, and every row non-empty, without repetition and made
    of truthy methods. *)
Definition set_wf (h : heap) (ts : list value) (ms : list (option loc)) : Prop :=
  length ts = length ms
  ∧ NoDup ts
  ∧ (VUndef ∉ ts)
  ∧ NoDup ms
  ∧ Forall (fun m => ∃ r row,
                m = Some r ∧ h_rows h !! r = Some row ∧ row ≠ []
                ∧ NoDup row ∧ Forall (fun x => truthy x = true) row) ms.

(** ** Scenarios *)

(** A host without hooks whose functions do nothing. *)
Definition plain_host : host :=
  Host (fun _ _ _ => ret VUndef) (fun _ _ => VUndef)
       (fun _ => None) (fun _ => None) (fun _ => None) 0.

(** A host without hooks where function [f] runs [body f] and returns
    [undefined]. *)
Definition host_of_bodies (body : nat → M unit) : host :=
  Host (fun f _ _ => body f ;; ret VUndef) (fun _ _ => VUndef)
       (fun _ => None) (fun _ => None) (fun _ => None) 0.

(** The body of function [f] is [removeListener(obj, eventName, null, f)];
    every other function does nothing. *)
Definition self_removing_host (obj : nat) (eventName : string) (f : nat) : host :=
  host_of_bodies
    (fun g => if decide (g = f)
              then removeListener plain_host obj eventName VNull (VFun f)
              else ret tt).

(** The body of function [f] is [removeListener(obj, eventName, target, f)]. *)
Definition target_removing_host (obj : nat) (eventName : string) (target : value)
    (f : nat) : host :=
  host_of_bodies
    (fun g => if decide (g = f)
              then removeListener plain_host obj eventName target (VFun f)
              else ret tt).

(** Modelled from the spec: an owner that inherits from another one starts
    with the directory of its parent, referentially shared (the [listeners]
    field that [Ember.meta] hands to the child is the parent's). *)
Definition inherit (child parent : nat) : M unit :=
  do h <- get_heap;
  match h_meta h !! parent with
  | Some d => set_meta_listeners child d
  | None => ret tt
  end.

(** An accumulator for [targetSetUnion] and [targetSetDiff] that holds the
    one pair [(target, method)]. *)
Definition accumulator_with (target method : value) : M loc :=
  do r <- alloc_row [method];
  alloc_acts (Actions None (Some [target]) (Some [Some r])).

(** Owner [1] with the listener [(VObj 11, VFun 1)] on ["e"]. *)
Definition one_listener : heap :=
  after (addListener plain_host 1 "e" (VObj 11) (VFun 1)) empty_heap.

(** ... and then [(VObj 12, VFun 2)] on the same event. *)
Definition two_targets : heap :=
  after (addListener plain_host 1 "e" (VObj 12) (VFun 2)) one_listener.

(** ... and then [(VObj 13, VFun 3)]. *)
Definition three_targets : heap :=
  after (addListener plain_host 1 "e" (VObj 13) (VFun 3)) two_targets.

(** Owner [1] listens on ["y"]; owner [2] inherits from it. *)
Definition parent_and_child : heap :=
  after (inherit 2 1)
        (after (addListener plain_host 1 "y" VNull (VFun 1)) empty_heap).

(** Owner [1] with [(VObj 11, VFun 2)] on ["e1"] and [(VObj 11, VFun 1)] on
    ["e2"]. *)
Definition two_events : heap :=
  after (addListener plain_host 1 "e2" (VObj 11) (VFun 1))
        (after (addListener plain_host 1 "e1" (VObj 11) (VFun 2)) empty_heap).

(** Owner [1] with the functions [1] and [2] on ["e"], both without
    target. *)
Definition one_row : heap :=
  after (addListener plain_host 1 "e" VNull (VFun 2))
        (after (addListener plain_host 1 "e" VNull (VFun 1)) empty_heap).

(** ** What a visit of an action set sees *)

(** The pairs that the inner loop of [iterateSet] hands to its visitor for
    one row: the truthy methods, from the last index down to the first. *)
Definition listed_row (t : value) (row : list value) : list action :=
  (fun m => (t, m)) <$> rev (filter (fun m => truthy m = true) row).

(** The pairs that [iterateSet] hands to its visitor, in order, as long as
    the visitor leaves the heap alone: index by index, the target at an
    index with the row at the same index. *)
Definition listed (h : heap) (ts : list value) (ms : list (option loc)) : list action :=
  mjoin (zip_with (fun t m =>
                     match m ≫= (fun r => h_rows h !! r) with
                     | Some row => listed_row t row
                     | None => []
                     end) ts ms).

(** A visitor as a function of the pair and of its captured variables,
    run over a list of pairs until it answers [true]. *)
Fixpoint visit_all {St} (f : action → St → bool * St) (l : list action) (s : St)
  : bool * St :=
  match l with
  | [] => (false, s)
  | x :: l' => if (f x s).1 then (true, (f x s).2) else visit_all f l' (f x s).2
  end.

(** Every index of [targets] has a row in the heap. *)
Definition rows_present (h : heap) (ts : list value) (ms : list (option loc)) : Prop :=
  ∀ (i : nat), (i < length ts)%nat →
    ∃ r row, nth_row ms i = Some r ∧ h_rows h !! r = Some row.

(** The part of [addListener] between [actionsFor] and the hook: the
    pair is put in the actions object [a]. *)
Definition register_in (a : loc) (target method : value) : M unit :=
  do ts <- get_targets a;
  match indexOf target ts with
  | Some i =>
      do ms <- get_methods a;
      do r <- match nth_row ms i with
              | Some r => ret r
              | None => do r <- alloc_row [];
                        set_methods a (set_nth_row ms i r) ;; ret r
              end;
      do row <- read_row r;
      match indexOf method row with
      | None => push_row r method
      | Some _ => ret tt
      end
  | None => push_target a target method
  end.

(** Owner [1] with [(VObj 11, VFun 1)] on ["e"], and owner [2] that
    inherits from it. *)
Definition shared_entry : heap := after (inherit 2 1) one_listener.

(** ** Action sets as values *)

(** The rows that [methods] points to, in order; [None] when an index
    holds no row of the heap. *)
Definition rows_of (rows : list (list value)) (ms : list (option loc))
  : option (list (list value)) :=
  mapM (fun m => m ≫= (fun r => rows !! r)) ms.

(** The exact contents of an actions object whose arrays are aligned: the
    targets in order, each with the row at its index.  [None] when the
    two arrays differ in length or an index of [methods] holds no row of
    the heap. *)
Definition set_rows (h : heap) (a : loc) : option (list (value * list value)) :=
  match h_acts h !! a with
  | Some (Actions _ (Some ts) (Some ms)) =>
      if decide (length ts = length ms)
      then zip ts <$> rows_of (h_rows h) ms
      else None
  | _ => None
  end.

(** Registration in an action set taken as a value: the method goes to
    the end of the row of its target unless the row has it, and a target
    without row gets one at the end. *)
Fixpoint set_add (t m : value) (s : list (value * list value))
  : list (value * list value) :=
  match s with
  | [] => [(t, [m])]
  | (t0, row) :: s' =>
      if decide (t0 = t)
      then (t0, match indexOf m row with
                | Some _ => row
                | None => row ++ [m]
                end) :: s'
      else (t0, row) :: set_add t m s'
  end.

(** The pairs that a visit of such a value sees: row by row, each row from
    its last method down to its first. *)
Definition set_listing (s : list (value * list value)) : list action :=
  mjoin ((fun p => listed_row p.1 p.2) <$> s).

(** The value that holds the pairs of a list, registered one after the
    other. *)
Definition set_of (l : list action) : list (value * list value) :=
  foldl (fun s p => set_add p.1 p.2 s) [] l.

(** ** Listeners that leave the registry of an event alone *)

(** The operation [F] returns, and leaves the actions object of [(o, e)]
    and every array of the heap as they are; it may allocate. *)
Definition keeps_set (o : nat) (e : string) (F : M value) : Prop :=
  ∀ h a ts ms, holds h o e a ts ms →
    ∃ v h', F h = Ret v h' ∧ holds h' o e a ts ms
            ∧ ∀ (r : loc) (row : list value),
                h_rows h !! r = Some row → h_rows h' !! r = Some row.

(** A function body that leaves a record of its call in the heap: a new
    array with the function and its [this]. *)
Definition recording_call (f : nat) (this : value) : M value :=
  alloc_row [VFun f; this] ;; ret VUndef.

(** The body of function [f] is [removeListener(obj, eventName, null, f)];
    every other function records its call. *)
Definition recording_host (obj : nat) (eventName : string) (f : nat) : host :=
  Host (fun g this _ =>
          if decide (g = f)
          then removeListener plain_host obj eventName VNull (VFun f) ;; ret VUndef
          else recording_call g this)
       (fun _ _ => VUndef)
       (fun _ => None) (fun _ => None) (fun _ => None) 0.

(** A host where the object [11] has the method [didLoad], which is the
    function [7]; every function records its call. *)
Definition named_method_host : host :=
  Host (fun g this _ => recording_call g this)
       (fun o k => if decide (o = VObj 11 ∧ k = "didLoad") then VFun 7 else VUndef)
       (fun _ => None) (fun _ => None) (fun _ => None) 0.


(** Owner [1] after a listener on ["e"] has been added and removed
    again. *)
Definition emptied_entry : heap :=
  after (removeListener plain_host 1 "e" VNull (VFun 9))
        (after (addListener plain_host 1 "e" VNull (VFun 9)) empty_heap).

(** ... and then the functions [1], [2] and [3] registered in that order,
    without target. *)
Definition three_after_removal : heap :=
  after (addListener (recording_host 1 "e" 2) 1 "e" VNull (VFun 3))
        (after (addListener (recording_host 1 "e" 2) 1 "e" VNull (VFun 2))
               (after (addListener (recording_host 1 "e" 2) 1 "e" VNull (VFun 1))
                      emptied_entry)).

(** * Theorems *)

(** ** Removal of a pair that is not registered *)

(** C1 (the code departs from it): removing a pair whose target has no row
    returns normally but is not a no-op.  With [(VObj 11, VFun 1)]
    registered, [removeListener(1, "e", VObj 12, VFun 2)] finds index [-1],
    takes the fresh empty list as the row and splices [targets] at [-1]:
    the last target goes and [listenersFor] loses the registered pair. *)
Theorem removeListener_without_row_drops_last_target :
  returned (listenersFor 1 "e" one_listener) = Some [(VObj 11, VFun 1)]
  ∧ returned (removeListener plain_host 1 "e" (VObj 12) (VFun 2) one_listener)
    = Some tt
  ∧ returned (listenersFor 1 "e"
       (after (removeListener plain_host 1 "e" (VObj 12) (VFun 2)) one_listener))
    = Some [].
Proof. repeat split; vm_compute; reflexivity. Qed.

(** ** The invariants of an action set *)

(** C2 (the code departs from it): [removeListener] breaks the alignment of
    [targets] and [methods].  Removing the only method of the first target
    splices [targets] but leaves the emptied row in [methods], so the
    second target is then paired with the first row and its listener is no
    longer listed. *)
Theorem removeListener_breaks_alignment :
  action_set_ok two_targets 0 = true
  ∧ pairs_of two_targets 0 = [(VObj 11, VFun 1); (VObj 12, VFun 2)]
  ∧ (let h := after (removeListener plain_host 1 "e" (VObj 11) (VFun 1)) two_targets in
     action_set_ok h 0 = false
     ∧ h_acts h !! 0 = Some (Actions (Some (VObj 1)) (Some [VObj 12]) (Some [Some 0; Some 1]))
     ∧ h_rows h = [[]; [VFun 2]]
     ∧ returned (listenersFor 1 "e" h) = Some []).
Proof. repeat split; vm_compute; reflexivity. Qed.

(** ** Copy on write *)

(** C3 (the code departs from it): owner [2] shares the directory of owner
    [1], which has no entry for ["x"].  [actionsFor] stores the new actions
    object for ["x"] in the shared directory before it looks at the source
    marker, so the listener that [2] adds is seen by [1]. *)
Theorem addListener_writes_into_shared_directory :
  h_meta parent_and_child !! 2 = h_meta parent_and_child !! 1
  ∧ returned (hasListeners 1 "x" parent_and_child) = Some false
  ∧ returned (listenersFor 1 "x" parent_and_child) = Some []
  ∧ (let h := after (addListener plain_host 2 "x" VNull (VFun 2)) parent_and_child in
     returned (hasListeners 1 "x" h) = Some true
     ∧ returned (listenersFor 1 "x" h) = Some [(VNull, VFun 2)]).
Proof. repeat split; vm_compute; reflexivity. Qed.

(** ** Suspension *)

(** C4 (the code departs from it): [suspendListeners] records a row for
    every event but a removed method only for the events that held it, and
    restores them index by index.  With the pair registered on ["e2"] and
    only a row for its target on ["e1"], the method removed from ["e2"] is
    pushed on the row of ["e1"]: after the call the pair is gone from
    ["e2"] and has appeared on ["e1"]. *)
Theorem suspendListeners_restores_into_wrong_row :
  returned (listenersFor 1 "e2" two_events) = Some [(VObj 11, VFun 1)]
  ∧ returned (listenersFor 1 "e1" two_events) = Some [(VObj 11, VFun 2)]
  ∧ (let r := suspendListeners plain_host 1 ["e1"; "e2"] (VObj 11) (VFun 1) (VFun 9)
                two_events in
     returned r = Some VUndef
     ∧ returned (listenersFor 1 "e2" (heap_of r)) = Some []
     ∧ returned (listenersFor 1 "e1" (heap_of r))
       = Some [(VObj 11, VFun 1); (VObj 11, VFun 2)]).
Proof. repeat split; vm_compute; reflexivity. Qed.

(** C10 (the code departs from it): [suspendListener] for a target without
    row reads [actions.methods[-1]], which is [undefined], and fails on its
    [indexOf] before the callback is called. *)
Theorem suspendListener_without_row_throws :
  (∃ h, suspendListener plain_host 1 "e" VNull (VFun 1) (VFun 9) empty_heap
        = Throw TypeError h)
  ∧ (∃ h, suspendListener plain_host 1 "e" (VObj 13) (VFun 1) (VFun 9) two_targets
          = Throw TypeError h)
  ∧ (∃ h, suspendListeners plain_host 1 ["e"] VNull (VFun 1) (VFun 9) empty_heap
          = Throw TypeError h).
Proof. repeat split; eexists; vm_compute; reflexivity. Qed.

(** ** Mutation during dispatch *)

(** C5 (the code departs from it): the listener of the first of three
    targets removes itself during the dispatch.  Its row empties, [targets]
    is spliced and [methods] is not: the loop then pairs the second row
    with the third target and the third row with no target at all.  The
    registered pairs [(VObj 12, VFun 2)] and [(VObj 13, VFun 3)] are never
    handed to [invokeAction]; pairs that were never registered are. *)
Theorem sendEvent_self_removal_shifts_targets :
  returned (listenersFor 1 "e" three_targets)
  = Some [(VObj 11, VFun 1); (VObj 12, VFun 2); (VObj 13, VFun 3)]
  ∧ returned (sendEvent (target_removing_host 1 "e" (VObj 11) 1) 1 "e" None None
                three_targets)
    = Some [(VObj 11, VFun 1); (VObj 13, VFun 2); (VUndef, VFun 3)].
Proof. repeat split; vm_compute; reflexivity. Qed.

(** C8 (the code departs from it): on an owner where a listener of the
    event was added and removed before, the emptied row is still in
    [methods] while [targets] is empty.  The functions [1], [2] and [3]
    are then registered in that order, without target: the first one gets
    a new target and a new row at the end of [methods], the other two go
    to the stale row at the index of the target.  The body of [2] is
    [removeListener(owner, e, null, 2)]; the other functions leave a
    record of their call.  [sendEvent] calls [3] and [2] and never [1]:
    the heap ends with one record, the one of [3]. *)
Theorem sendEvent_after_earlier_removal_skips_first_listener :
  h_acts emptied_entry = [Actions (Some (VObj 1)) (Some []) (Some [Some 0])]
  ∧ h_rows emptied_entry = [[]]
  ∧ h_acts three_after_removal
    = [Actions (Some (VObj 1)) (Some [VNull]) (Some [Some 0; Some 1])]
  ∧ h_rows three_after_removal = [[VFun 2; VFun 3]; [VFun 1]]
  ∧ returned (sendEvent (recording_host 1 "e" 2) 1 "e" None None three_after_removal)
    = Some [(VNull, VFun 3); (VNull, VFun 2)]
  ∧ h_rows (after (sendEvent (recording_host 1 "e" 2) 1 "e" None None)
                  three_after_removal)
    = [[VFun 3]; [VFun 1]; [VFun 3; VObj 1]].
Proof. repeat split; vm_compute; reflexivity. Qed.

(** A listener that removes an earlier listener of its own row is invoked
    a second time: the reverse loop finds it again at the lower index. *)
Lemma sendEvent_removal_of_earlier_listener_repeats :
  returned (sendEvent (host_of_bodies
                         (fun g => if decide (g = 2)
                                   then removeListener plain_host 1 "e" VNull (VFun 1)
                                   else ret tt))
                      1 "e" None None one_row)
  = Some [(VNull, VFun 2); (VNull, VFun 2)].
Proof. vm_compute; reflexivity. Qed.

(** ** Reasoning about heaps that are not known in full *)

(** Unfolding of the monadic layer; what is left is a nest of matches on
    heap lookups, to be rewritten with what is known about the heap. *)
Ltac js_unfold :=
  unfold push_target, push_row, default_arrays, get_targets, get_methods,
    set_targets, set_methods, assert_event, dir_set, set_meta_listeners,
    read_acts, write_acts, read_row, write_row, alloc_dir, alloc_acts,
    alloc_row, get_heap, bind, ret, throw.

Ltac js_beta :=
  cbn [h_dirs h_acts h_rows h_meta a_source a_targets a_methods
       d_proto d_source d_events fst snd default from_option id
       mbind option_bind splice1].

Ltac js_rw H := rewrite H; js_beta.

Lemma lookup_snoc {A} (l : list A) (x : A) : (l ++ [x]) !! length l = Some x.
Proof. by apply list_lookup_middle. Qed.

Lemma insert_snoc {A} (l : list A) (x y : A) : <[length l := y]> (l ++ [x]) = l ++ [y].
Proof.
  rewrite insert_app_r_alt by lia. by rewrite Nat.sub_diag.
Qed.

(** Evaluation on a heap whose last cells are known. *)
Ltac js_run :=
  repeat first
    [ progress js_beta
    | rewrite lookup_snoc
    | rewrite insert_snoc
    | progress cbn [indexOf app assoc_set] ].

(** Evaluation on a heap described by hypotheses: a scrutinee that a
    hypothesis determines is rewritten with it. *)
Ltac js_hyp :=
  match goal with
  | H : ?x = _ |- context [match ?x with _ => _ end] => rewrite H
  | H : _ = Some _ |- _ => rewrite H
  | H : _ = None |- _ => rewrite H
  end.

Ltac js_len := rewrite ?length_insert, ?length_app; cbn [length]; first [done | lia].

Ltac js_auto :=
  repeat first
    [ progress js_beta
    | js_hyp
    | rewrite list_lookup_insert_eq by js_len
    | rewrite lookup_snoc
    | rewrite insert_snoc
    | rewrite list_insert_insert_eq ].

Lemma indexOf_here x l : indexOf x (x :: l) = Some 0.
Proof. simpl. by rewrite decide_True. Qed.

Lemma indexOf_there x y l : y ≠ x → indexOf x (y :: l) = S <$> indexOf x l.
Proof. intros. simpl. by rewrite decide_False. Qed.

Lemma indexOf_Some x l i : indexOf x l = Some i → l !! i = Some x.
Proof.
  revert i. induction l as [|y l IH]; intros i; simpl; [done|].
  destruct (decide (y = x)) as [->|Hne].
  - by intros [= <-].
  - destruct (indexOf x l) as [k|]; simpl; [|done].
    intros [= <-]. simpl. by apply IH.
Qed.

Lemma indexOf_None x l : indexOf x l = None ↔ x ∉ l.
Proof.
  induction l as [|y l IH]; simpl.
  - split; [intros _; apply not_elem_of_nil | done].
  - destruct (decide (y = x)) as [->|Hne].
    + split; [done | intros H; destruct H; left].
    + rewrite not_elem_of_cons. destruct (indexOf x l); simpl.
      * split; [done | intros [_ H]; by apply IH in H].
      * split; [intros _; split; [congruence | by apply IH] | done].
Qed.

Lemma indexOf_lookup_NoDup x l i : NoDup l → l !! i = Some x → indexOf x l = Some i.
Proof.
  intros Hnd. revert i. induction Hnd as [|y l Hy Hnd IH]; intros i; [done|].
  destruct i as [|i]; simpl.
  - intros [= ->]. by rewrite decide_True.
  - intros Hi. rewrite decide_False.
    + by rewrite (IH _ Hi).
    + intros ->. apply Hy. by eapply list_elem_of_lookup_2.
Qed.

Lemma assoc_get_set_eq {V} k (v : V) l : assoc_get k (assoc_set k v l) = Some v.
Proof.
  induction l as [|[k' v'] l IH]; simpl.
  - by rewrite decide_True.
  - destruct (decide (k' = k)) as [->|Hne]; simpl.
    + by rewrite decide_True.
    + by rewrite decide_False.
Qed.

Lemma dir_get_is_Some ds d e v : dir_get ds d e = Some v → is_Some (ds !! d).
Proof. unfold dir_get. simpl. destruct (ds !! d); [eauto | done]. Qed.

Lemma dir_get_set ds d e v D :
  ds !! d = Some D →
  dir_get (<[d := Dir (d_proto D) (d_source D) (assoc_set e v (d_events D))]> ds) d e
  = Some v.
Proof.
  intros HD. unfold dir_get. simpl.
  rewrite list_lookup_insert_eq by (by eapply lookup_lt_Some).
  simpl. by rewrite assoc_get_set_eq.
Qed.

Lemma dir_get_snoc ds p s e v :
  dir_get (ds ++ [Dir p s [(e, v)]]) (length ds) e = Some v.
Proof. unfold dir_get. simpl. rewrite lookup_snoc. simpl. by rewrite decide_True. Qed.

Lemma targetSetFor_entry h o e a :
  entry (h_dirs h) (h_meta h) o e a → targetSetFor o e h = Some a.
Proof. intros (d & Hm & Hd). unfold targetSetFor. by rewrite Hm, Hd. Qed.

(** [actionsFor] on an entry that the owner already owns hands out the
    same object and touches nothing but the directory slot it rewrites. *)
Lemma actionsFor_own ds acts rows meta o e a ts ms :
  holds (Heap ds acts rows meta) o e a ts ms →
  ∃ ds', actionsFor o e (Heap ds acts rows meta) = Ret a (Heap ds' acts rows meta)
         ∧ entry ds' meta o e a.
Proof.
  intros [(d & Hm & Hd) Ha]. cbn [h_dirs h_acts h_meta] in Hm, Hd, Ha.
  destruct (dir_get_is_Some _ _ _ _ Hd) as [D HD].
  eexists. split.
  - unfold actionsFor. js_unfold. js_beta. js_rw Hm. js_rw Hd. js_rw HD. js_rw Ha.
    rewrite decide_True by done. js_beta. js_rw Ha.
    rewrite (list_insert_id acts) by done. reflexivity.
  - exists d. split; [done|]. by apply dir_get_set.
Qed.

(** [actionsFor] where the owner has no entry creates an actions object
    marked with the owner, with empty arrays. *)
Lemma actionsFor_no_entry ds acts rows meta o e :
  no_entry ds meta o e →
  ∃ ds' meta',
    actionsFor o e (Heap ds acts rows meta)
    = Ret (length acts)
          (Heap ds' (acts ++ [Actions (Some (VObj o)) (Some []) (Some [])]) rows meta')
    ∧ entry ds' meta' o e (length acts).
Proof.
  unfold no_entry. intros Hno.
  destruct (meta !! o) as [d|] eqn:Hm.
  - destruct Hno as [[D HD] Hd]. eexists _, meta. split.
    + unfold actionsFor. js_unfold. js_beta. js_rw Hm.
      destruct (dir_get ds d e) as [[a|]|] eqn:Hg; [done| |];
        js_beta; js_rw HD; rewrite lookup_snoc; js_beta;
        rewrite decide_True by done; js_beta; rewrite lookup_snoc; js_beta;
        rewrite insert_snoc; reflexivity.
    + exists d. split; [done|]. by apply dir_get_set.
  - eexists _, _. split.
    + unfold actionsFor. js_unfold. js_beta. js_rw Hm.
      unfold dir_get at 1. cbn [dir_get_fuel]. rewrite lookup_snoc. cbn [d_events assoc_get d_proto].
      js_beta. rewrite lookup_snoc. js_beta. rewrite lookup_snoc. js_beta.
      rewrite decide_True by done. js_beta. rewrite lookup_snoc. js_beta.
      rewrite !insert_snoc. cbn [assoc_set]. reflexivity.
    + exists (length ds). split; [apply lookup_insert_eq | apply dir_get_snoc].
Qed.

Lemma bind_Ret {A B} (m : M A) (k : A → M B) h a h' :
  m h = Ret a h' → bind m k h = k a h'.
Proof. intros H. unfold bind. by rewrite H. Qed.

Lemma bind_Throw {A B} (m : M A) (k : A → M B) h x h' :
  m h = Throw x h' → bind m k h = Throw x h'.
Proof. intros H. unfold bind. by rewrite H. Qed.

Lemma shuffle_truthy t m : truthy m = true → shuffle t m = (t, m).
Proof. intros H. unfold shuffle. by rewrite H. Qed.

Lemma holds_heap ds' acts rows meta o e a ts ms :
  entry ds' meta o e a →
  acts !! a = Some (Actions (Some (VObj o)) (Some ts) (Some ms)) →
  holds (Heap ds' acts rows meta) o e a ts ms.
Proof. by split. Qed.

(** ** What [addListener] does to an action set *)

Section add_remove.
Variable W : host.
Variables (o : nat) (e : string).
Hypothesis He : e ≠ "".
Hypothesis Hadd : didAddListener W o = None.
Hypothesis Hrem : didRemoveListener W o = None.

(** The first listener of an event. *)
Lemma addListener_first ds acts rows meta t m :
  shuffle t m = (t, m) →
  no_entry ds meta o e →
  ∃ ds' meta',
    addListener W o e t m (Heap ds acts rows meta)
    = Ret tt (Heap ds' (acts ++ [Actions (Some (VObj o)) (Some [t])
                                        (Some [Some (length rows)])])
                   (rows ++ [[m]]) meta')
    ∧ entry ds' meta' o e (length acts).
Proof using He Hadd.
  intros Hsh Hno.
  destruct (actionsFor_no_entry ds acts rows meta o e Hno) as (ds' & meta' & Hact & Hent).
  exists ds', meta'. split; [|done].
  unfold addListener. rewrite Hsh, Hadd.
  unfold assert_event. rewrite decide_False by done.
  unfold bind at 1. cbn [ret]. unfold bind at 1.
  rewrite Hact.
  js_unfold. js_run.
  reflexivity.
Qed.

(** A new method for a target that has a row. *)
Lemma addListener_row ds acts rows meta a ts ms t m i r row :
  shuffle t m = (t, m) →
  holds (Heap ds acts rows meta) o e a ts ms →
  indexOf t ts = Some i → nth_row ms i = Some r →
  rows !! r = Some row → indexOf m row = None →
  ∃ ds',
    addListener W o e t m (Heap ds acts rows meta)
    = Ret tt (Heap ds' acts (<[r := row ++ [m]]> rows) meta)
    ∧ entry ds' meta o e a.
Proof using He Hadd.
  intros Hsh Hh Hi Hr Hrow Hm.
  destruct (actionsFor_own _ _ _ _ _ _ _ _ _ Hh) as (ds' & Hact & Hent).
  destruct Hh as [_ Ha]. cbn [h_acts] in Ha.
  exists ds'. split; [|done].
  unfold addListener. rewrite Hsh, Hadd.
  unfold assert_event. rewrite decide_False by done.
  unfold bind at 1. cbn [ret]. unfold bind at 1.
  rewrite Hact.
  js_unfold. js_beta. js_rw Ha. js_rw Hi. js_rw Ha.
  js_rw Hr. js_rw Hrow. js_rw Hm. js_rw Hrow.
  reflexivity.
Qed.

(** A method that its target already has: nothing changes. *)
Lemma addListener_present ds acts rows meta a ts ms t m i r row j :
  shuffle t m = (t, m) →
  holds (Heap ds acts rows meta) o e a ts ms →
  indexOf t ts = Some i → nth_row ms i = Some r →
  rows !! r = Some row → indexOf m row = Some j →
  ∃ ds',
    addListener W o e t m (Heap ds acts rows meta)
    = Ret tt (Heap ds' acts rows meta)
    ∧ entry ds' meta o e a.
Proof using He Hadd.
  intros Hsh Hh Hi Hr Hrow Hm.
  destruct (actionsFor_own _ _ _ _ _ _ _ _ _ Hh) as (ds' & Hact & Hent).
  destruct Hh as [_ Ha]. cbn [h_acts] in Ha.
  exists ds'. split; [|done].
  unfold addListener. rewrite Hsh, Hadd.
  unfold assert_event. rewrite decide_False by done.
  unfold bind at 1. cbn [ret]. unfold bind at 1.
  rewrite Hact.
  js_unfold. js_beta. js_rw Ha. js_rw Hi. js_rw Ha.
  js_rw Hr. js_rw Hrow. js_rw Hm.
  reflexivity.
Qed.

(** A target that has no row yet gets one at the end. *)
Lemma addListener_new_target ds acts rows meta a ts ms t m :
  shuffle t m = (t, m) →
  holds (Heap ds acts rows meta) o e a ts ms →
  indexOf t ts = None →
  ∃ ds',
    addListener W o e t m (Heap ds acts rows meta)
    = Ret tt (Heap ds'
                   (<[a := Actions (Some (VObj o)) (Some (ts ++ [t]))
                                   (Some (ms ++ [Some (length rows)]))]> acts)
                   (rows ++ [[m]]) meta)
    ∧ entry ds' meta o e a.
Proof using He Hadd.
  intros Hsh Hh Hi.
  destruct (actionsFor_own _ _ _ _ _ _ _ _ _ Hh) as (ds' & Hact & Hent).
  destruct Hh as [_ Ha]. cbn [h_acts] in Ha.
  assert (a < length acts) as Hlt by (by eapply lookup_lt_Some).
  exists ds'. split; [|done].
  unfold addListener. rewrite Hsh, Hadd.
  unfold assert_event. rewrite decide_False by done.
  unfold bind at 1. cbn [ret]. unfold bind at 1.
  rewrite Hact.
  js_unfold. js_auto. reflexivity.
Qed.
End add_remove.


(** ** What [removeListener] does to an action set *)

Section remove.
Variable W : host.
Variables (o : nat) (e : string).
Hypothesis He : e ≠ "".
Hypothesis Hrem : didRemoveListener W o = None.

(** The target has a row: the method leaves the row, and when the row is
    empty afterwards the target leaves [targets]; [methods] keeps the
    row. *)
Lemma _removeListener_row ds acts rows meta a ts ms t m i r row :
  holds (Heap ds acts rows meta) o e a ts ms →
  indexOf t ts = Some i → nth_row ms i = Some r → rows !! r = Some row →
  ∃ ds',
    _removeListener W o e t m (Heap ds acts rows meta)
    = Ret tt (Heap ds'
                (if decide (length (removed_row m row) = 0)
                 then <[a := Actions (Some (VObj o)) (Some (delete i ts)) (Some ms)]> acts
                 else acts)
                (<[r := removed_row m row]> rows) meta)
    ∧ entry ds' meta o e a.
Proof using Hrem.
  intros Hh Hi Hr Hrow.
  destruct (actionsFor_own _ _ _ _ _ _ _ _ _ Hh) as (ds' & Hact & Hent).
  destruct Hh as [_ Ha]. cbn [h_acts] in Ha.
  exists ds'. split; [|done].
  unfold _removeListener. rewrite Hrem.
  unfold bind at 1. unfold bind at 1. rewrite Hact.
  unfold removed_row.
  destruct (indexOf m row) as [j|] eqn:Hj.
  - js_unfold. js_auto.
    destruct (decide (length (delete j row) = 0)); js_auto; reflexivity.
  - js_unfold. js_auto. rewrite (list_insert_id rows) by done.
    destruct (decide (length row = 0)); js_auto; reflexivity.
Qed.

(** The target has no row: the row is the fresh empty list, and
    [targets] is spliced at the index that [indexOf] gave. *)
Lemma _removeListener_no_row ds acts rows meta a ts ms t m :
  holds (Heap ds acts rows meta) o e a ts ms →
  indexOf t ts ≫= nth_row ms = None →
  ∃ ds',
    _removeListener W o e t m (Heap ds acts rows meta)
    = Ret tt (Heap ds'
                (<[a := Actions (Some (VObj o)) (Some (splice1 (indexOf t ts) ts)) (Some ms)]> acts)
                rows meta)
    ∧ entry ds' meta o e a.
Proof using Hrem.
  intros Hh Hno.
  destruct (actionsFor_own _ _ _ _ _ _ _ _ _ Hh) as (ds' & Hact & Hent).
  destruct Hh as [_ Ha]. cbn [h_acts] in Ha.
  exists ds'. split; [|done].
  unfold _removeListener. rewrite Hrem.
  unfold bind at 1. unfold bind at 1. rewrite Hact.
  js_unfold. js_auto. cbn [indexOf length].
  rewrite decide_True by done. js_auto. reflexivity.
Qed.

(** [removeListener] with a method is [_removeListener]. *)
Lemma removeListener_method t m h :
  truthy m = true →
  removeListener W o e t m h = _removeListener W o e t m h.
Proof using He.
  intros Hm. unfold removeListener. rewrite (shuffle_truthy _ _ Hm), Hm.
  unfold assert_event. rewrite decide_False by done. reflexivity.
Qed.
End remove.

(** ** What [suspendListener] does to an action set *)


(** ** Dispatch *)

Lemma iterate_row_step {St} (cb : action → St → M (bool * St)) r t j s h row :
  h_rows h !! r = Some row →
  iterate_row cb r t (S j) s h
  = if truthy (nth_value row j)
    then bind (cb (t, nth_value row j) s)
              (fun x => if x.1 then ret (true, x.2) else iterate_row cb r t j x.2) h
    else iterate_row cb r t j s h.
Proof.
  intros Hrow. cbn [iterate_row]. unfold bind at 1. unfold read_row. rewrite Hrow.
  by destruct (truthy (nth_value row j)).
Qed.

Lemma iterate_targets_step {St} (cb : action → St → M (bool * St)) a n i s h A ts ms r row :
  h_acts h !! a = Some A → a_targets A = Some ts → a_methods A = Some ms →
  nth_row ms i = Some r → h_rows h !! r = Some row →
  iterate_targets cb a (S n) i s h
  = bind (iterate_row cb r (nth_value ts i) (length row) s)
         (fun x => if x.1 then ret (true, x.2) else iterate_targets cb a n (S i) x.2) h.
Proof.
  intros Ha Hts Hms Hr Hrow. cbn [iterate_targets].
  unfold get_targets, get_methods, read_acts, read_row, bind, ret.
  rewrite Ha, Hts. cbn. rewrite Ha, Hms. cbn. rewrite Hr, Hrow. reflexivity.
Qed.

Lemma iterateSet_holds {St} (cb : action → St → M (bool * St)) h o e a ts ms s :
  holds h o e a ts ms →
  iterateSet cb (targetSetFor o e h) s h = iterate_targets cb a (length ts) 0 s h.
Proof.
  intros [Hent Ha]. rewrite (targetSetFor_entry _ _ _ _ Hent).
  unfold iterateSet, read_acts, bind. by rewrite Ha.
Qed.

Section three_listeners.
Variable W : host.
Variables (o : nat) (e : string) (f1 f2 f3 : nat).
Hypothesis He : e ≠ "".
Hypothesis Hadd : didAddListener W o = None.
Hypothesis H12 : f1 ≠ f2.
Hypothesis H13 : f1 ≠ f3.
Hypothesis H23 : f2 ≠ f3.

(** The heap after the three registrations: one row for the target
    [null], with the three functions in the order of registration. *)
Lemma three_listeners_heap ds acts rows meta :
  no_entry ds meta o e →
  ∃ ds' meta',
    after (addListener W o e VNull (VFun f3))
      (after (addListener W o e VNull (VFun f2))
         (after (addListener W o e VNull (VFun f1)) (Heap ds acts rows meta)))
    = Heap ds' (acts ++ [Actions (Some (VObj o)) (Some [VNull]) (Some [Some (length rows)])])
           (rows ++ [[VFun f1; VFun f2; VFun f3]]) meta'
    ∧ entry ds' meta' o e (length acts).
Proof using He Hadd H12 H13 H23.
  intros Hno.
  destruct (addListener_first W o e He Hadd ds acts rows meta VNull (VFun f1) eq_refl Hno)
    as (ds1 & meta1 & E1 & Hent1).
  unfold after at 3. rewrite E1. cbn [heap_of].
  set (A := Actions (Some (VObj o)) (Some [VNull]) (Some [Some (length rows)])) in *.
  edestruct (addListener_row W o e He Hadd ds1 (acts ++ [A]) (rows ++ [[VFun f1]]) meta1
               (length acts) [VNull] [Some (length rows)] VNull (VFun f2) 0 (length rows)
               [VFun f1] eq_refl) as (ds2 & E2 & Hent2).
  { apply holds_heap; [done | apply lookup_snoc]. }
  { apply indexOf_here. }
  { done. }
  { apply lookup_snoc. }
  { rewrite indexOf_there by congruence. done. }
  unfold after at 2. rewrite E2. cbn [heap_of]. rewrite insert_snoc. cbn [app].
  edestruct (addListener_row W o e He Hadd ds2 (acts ++ [A]) (rows ++ [[VFun f1; VFun f2]]) meta1
               (length acts) [VNull] [Some (length rows)] VNull (VFun f3) 0 (length rows)
               [VFun f1; VFun f2] eq_refl) as (ds3 & E3 & Hent3).
  { apply holds_heap; [done | apply lookup_snoc]. }
  { apply indexOf_here. }
  { done. }
  { apply lookup_snoc. }
  { rewrite !indexOf_there by congruence. done. }
  unfold after. rewrite E3. cbn [heap_of]. rewrite insert_snoc. cbn [app].
  eauto.
Qed.
End three_listeners.



(** ** Set algebra *)

Lemma lookup_app_len {A} (l k : list A) : (l ++ k) !! length l = k !! 0.
Proof. rewrite lookup_app_r by lia. by rewrite Nat.sub_diag. Qed.
Lemma lookup_app_len_add {A} (l k : list A) i : (l ++ k) !! (length l + i) = k !! i.
Proof. rewrite lookup_app_r by lia. f_equal. lia. Qed.
Lemma insert_app_len {A} (l k : list A) x : <[length l := x]> (l ++ k) = l ++ <[0 := x]> k.
Proof. rewrite insert_app_r_alt by lia. by rewrite Nat.sub_diag. Qed.
Lemma insert_app_len_add {A} (l k : list A) i x :
  <[length l + i := x]> (l ++ k) = l ++ <[i := x]> k.
Proof. rewrite insert_app_r_alt by lia. do 2 f_equal. lia. Qed.

Lemma indexOf_nil x : indexOf x [] = None.
Proof. done. Qed.

Ltac js_eval :=
  repeat first
    [ progress js_beta
    | js_hyp
    | rewrite lookup_app_len
    | rewrite lookup_app_len_add
    | rewrite insert_app_len
    | rewrite insert_app_len_add
    | rewrite <- app_assoc
    | rewrite length_app
    | progress js_unfold
    | progress unfold addAction
    | rewrite decide_True by done
    | rewrite indexOf_nil
    | rewrite indexOf_here
    | rewrite indexOf_there by congruence
    | progress cbn [app length lookup list_lookup insert list_insert fmap option_fmap
                    option_map nth_value nth_row mjoin option_join
                    iterate_row iterate_targets zip_with mbind option_bind list_fmap list_join
                    h_dirs h_acts h_rows h_meta a_source a_targets a_methods
                    d_proto d_source d_events fst snd default from_option id splice1] ].

Section diff.
Variable W : host.
Variables (P : nat) (e : string) (t1 m1 t2 m2 : value).
Hypothesis He : e ≠ "".
Hypothesis Hadd : didAddListener W P = None.
Hypothesis Hm1 : truthy m1 = true.
Hypothesis Hm2 : truthy m2 = true.

Lemma two_pairs_heap_ne ds acts rows meta :
  t1 ≠ t2 → no_entry ds meta P e →
  ∃ ds' meta',
    after (addListener W P e t2 m2) (after (addListener W P e t1 m1) (Heap ds acts rows meta))
    = Heap ds' (acts ++ [Actions (Some (VObj P)) (Some [t1; t2])
                                 (Some [Some (length rows); Some (length rows + 1)])])
           (rows ++ [[m1]; [m2]]) meta'
    ∧ entry ds' meta' P e (length acts).
Proof.
  intros Hne Hno.
  destruct (addListener_first W P e He Hadd ds acts rows meta t1 m1 (shuffle_truthy _ _ Hm1) Hno)
    as (ds1 & meta1 & E1 & Hent1).
  unfold after at 2. rewrite E1. cbn [heap_of].
  set (A := Actions (Some (VObj P)) (Some [t1]) (Some [Some (length rows)])) in *.
  edestruct (addListener_new_target W P e He Hadd ds1 (acts ++ [A]) (rows ++ [[m1]]) meta1
               (length acts) [t1] [Some (length rows)] t2 m2 (shuffle_truthy _ _ Hm2))
    as (ds2 & E2 & Hent2).
  { apply holds_heap; [done | apply lookup_snoc]. }
  { rewrite indexOf_there by done. done. }
  unfold after. rewrite E2. cbn [heap_of]. js_eval. eauto.
Qed.


Lemma two_pairs_heap_eq ds acts rows meta :
  t1 = t2 → m1 ≠ m2 → no_entry ds meta P e →
  ∃ ds' meta',
    after (addListener W P e t2 m2) (after (addListener W P e t1 m1) (Heap ds acts rows meta))
    = Heap ds' (acts ++ [Actions (Some (VObj P)) (Some [t1]) (Some [Some (length rows)])])
           (rows ++ [[m1; m2]]) meta'
    ∧ entry ds' meta' P e (length acts).
Proof.
  intros <- Hne Hno.
  destruct (addListener_first W P e He Hadd ds acts rows meta t1 m1 (shuffle_truthy _ _ Hm1) Hno)
    as (ds1 & meta1 & E1 & Hent1).
  unfold after at 2. rewrite E1. cbn [heap_of].
  set (A := Actions (Some (VObj P)) (Some [t1]) (Some [Some (length rows)])) in *.
  edestruct (addListener_row W P e He Hadd ds1 (acts ++ [A]) (rows ++ [[m1]]) meta1
               (length acts) [t1] [Some (length rows)] t1 m2 0 (length rows) [m1]
               (shuffle_truthy _ _ Hm2))
    as (ds2 & E2 & Hent2).
  { apply holds_heap; [done | apply lookup_snoc]. }
  { apply indexOf_here. }
  { done. }
  { apply lookup_snoc. }
  { rewrite indexOf_there by done. done. }
  unfold after. rewrite E2. cbn [heap_of]. js_eval. eauto.
Qed.

End diff.

Ltac js_set :=
  unfold set_rows, rows_of;
  repeat first
    [ progress js_eval
    | rewrite decide_False by congruence
    | progress cbn [set_of foldl set_add mapM mbind option_bind mret option_ret fmap
                    option_fmap option_map zip zip_with length fst snd] ].

(** C9: the event name is non-empty, other than [__ember_source__] and
    not a property name of [Object.prototype]; the source owner, which had
    no actions object for the event and has no [didAddListener] hook, has been given the pairs [(t1, m1)]
    and [(t2, m2)], and the accumulator holds [(t1, m1)].  [targetSetDiff]
    returns an action set whose arrays hold exactly [(t2, m2)], leaves
    both pairs in the accumulator and the source as it was; a second call
    with the same source and accumulator returns an action set with empty
    arrays.  The contents are compared array for array ([set_rows]), so a
    target without row, or a row without target, would show. *)
Theorem targetSetDiff_merges_once
    (W : host) (P : nat) (e : string) (t1 m1 t2 m2 : value) (h : heap) :
  event_name e →
  didAddListener W P = None →
  truthy m1 = true → truthy m2 = true →
  (t1, m1) ≠ (t2, m2) →
  no_entry (h_dirs h) (h_meta h) P e →
  ∃ a acc h1 d1 h2 d2 h3,
    let h0 := after (addListener W P e t2 m2) (after (addListener W P e t1 m1) h) in
    let both := set_add t2 m2 [(t1, [m1])] in
    targetSetFor P e h0 = Some a
    ∧ set_rows h0 a = Some both
    ∧ accumulator_with t1 m1 h0 = Ret acc h1
    ∧ set_rows h1 acc = Some [(t1, [m1])]
    ∧ targetSetDiff P e acc h1 = Ret d1 h2
    ∧ set_rows h2 d1 = Some [(t2, [m2])]
    ∧ set_rows h2 acc = Some both
    ∧ set_rows h2 a = Some both
    ∧ targetSetDiff P e acc h2 = Ret d2 h3
    ∧ set_rows h3 d2 = Some []
    ∧ set_rows h3 acc = Some both
    ∧ set_rows h3 a = Some both.
Proof.
  intros (He & Hs & _) Hadd Hm1 Hm2 Hpair Hno. destruct h as [ds acts rows meta]. cbn [h_dirs h_meta] in Hno.
  destruct (decide (t1 = t2)) as [Ht|Ht].
  - assert (m1 ≠ m2) as Hm by congruence.
    destruct (two_pairs_heap_eq W P e t1 m1 t2 m2 He Hadd Hm1 Hm2 ds acts rows meta Ht Hm Hno) as (ds' & meta' & -> & Hent).
    subst t2.
    eexists _, _, _, _, _, _, _. cbn zeta.
    split; [by apply targetSetFor_entry|].
    split; [js_set; reflexivity|].
    split; [unfold accumulator_with; js_eval; reflexivity|].
    split; [js_set; reflexivity|].
    split.
    { unfold targetSetDiff. js_eval.
      erewrite targetSetFor_entry by (cbn [h_dirs h_meta]; exact Hent).
      unfold iterateSet. js_eval. reflexivity. }
    split; [js_set; reflexivity|].
    split; [js_set; reflexivity|].
    split; [js_set; reflexivity|].
    split.
    { unfold targetSetDiff. js_eval.
      erewrite targetSetFor_entry by (cbn [h_dirs h_meta]; exact Hent).
      unfold iterateSet. js_eval. reflexivity. }
    split; [js_set; reflexivity|].
    split; js_set; reflexivity.
  - destruct (two_pairs_heap_ne W P e t1 m1 t2 m2 He Hadd Hm1 Hm2 ds acts rows meta Ht Hno) as (ds' & meta' & -> & Hent).
    eexists _, _, _, _, _, _, _. cbn zeta.
    split; [by apply targetSetFor_entry|].
    split; [js_set; reflexivity|].
    split; [unfold accumulator_with; js_eval; reflexivity|].
    split; [js_set; reflexivity|].
    split.
    { unfold targetSetDiff. js_eval.
      erewrite targetSetFor_entry by (cbn [h_dirs h_meta]; exact Hent).
      unfold iterateSet. js_eval. reflexivity. }
    split; [js_set; reflexivity|].
    split; [js_set; reflexivity|].
    split; [js_set; reflexivity|].
    split.
    { unfold targetSetDiff. js_eval.
      erewrite targetSetFor_entry by (cbn [h_dirs h_meta]; exact Hent).
      unfold iterateSet. js_eval. reflexivity. }
    split; [js_set; reflexivity|].
    split; js_set; reflexivity.
Qed.

(** ** Queries *)

Lemma assoc_get_Some_key {V} k (v : V) l : assoc_get k l = Some v → k ∈ l.*1.
Proof.
  induction l as [|[k' v'] l IH]; simpl; [done|].
  destruct (decide (k' = k)) as [->|Hne].
  - intros _. left.
  - intros H. right. by apply IH.
Qed.

Lemma dir_get_fuel_key n ds d k v :
  dir_get_fuel n ds d k = Some v → k ∈ dir_keys_fuel n ds d.
Proof.
  revert d. induction n as [|n IH]; intros d; simpl; [done|].
  destruct (ds !! d) as [D|]; [|done].
  destruct (assoc_get k (d_events D)) as [v'|] eqn:Hown.
  - intros _. apply assoc_get_Some_key in Hown.
    destruct (d_proto D); [apply elem_of_app; by left | done].
  - destruct (d_proto D) as [p|]; [|done].
    intros Hp. apply elem_of_app.
    destruct (decide (k ∈ (d_events D).*1)); [by left|].
    right. apply list_elem_of_filter. split; [done | by apply IH].
Qed.

(** An event that resolves to an actions object is listed by
    [watchedEvents], whether the object holds listeners or not. *)
Lemma watchedEvents_entry h o e a :
  SKIP_PROPERTIES e = false →
  entry (h_dirs h) (h_meta h) o e a → e ∈ watchedEvents o h.
Proof.
  intros Hs (d & Hm & Hd). unfold watchedEvents. rewrite Hm.
  apply list_elem_of_filter. split.
  - split; [done | by rewrite Hd].
  - by eapply dir_get_fuel_key.
Qed.

(** An event that resolves to [null] is not listed. *)
Lemma watchedEvents_null h o e d :
  h_meta h !! o = Some d → dir_get (h_dirs h) d e = Some None →
  e ∉ watchedEvents o h.
Proof.
  intros Hm Hd. unfold watchedEvents. rewrite Hm.
  intros [[_ Ht] _]%list_elem_of_filter. by rewrite Hd in Ht.
Qed.

(** [listenersFor] on an action set without targets. *)
Lemma listenersFor_no_targets h o e a ms :
  holds h o e a [] ms → listenersFor o e h = Ret [] h.
Proof.
  intros Hh. unfold listenersFor, get_heap. unfold bind at 1. unfold bind at 1.
  by rewrite (iterateSet_holds _ _ _ _ _ _ _ _ Hh).
Qed.


(** ** Removal symmetry *)




(** ** Removal without method *)

Lemma removeListener_no_method W o e t h :
  e ≠ "" → is_function t = false →
  removeListener W o e t VUndef h
  = (iterateSet (remove_visit W o e) (targetSetFor o e h) tt ;; ret tt) h.
Proof.
  intros He Ht. unfold removeListener, shuffle, assert_event.
  rewrite Ht, decide_False by done. reflexivity.
Qed.

Lemma delete_last_take {A} (l : list A) : delete (length l - 1) l = take (length l - 1) l.
Proof.
  destruct l as [|x l' _] using rev_ind; [done|].
  rewrite length_app. cbn [length]. replace (length l' + 1 - 1) with (length l') by lia.
  rewrite delete_middle, take_app_length. apply app_nil_r.
Qed.

Lemma delete_take_S {A} (l : list A) j : delete j (take (S j) l) = take j l.
Proof.
  revert l. induction j as [|j IH]; intros [|x l]; try done.
  change (x :: delete j (take (S j) l) = x :: take j l). by rewrite IH.
Qed.

Lemma removed_row_take row j x :
  NoDup row → row !! j = Some x → removed_row x (take (S j) row) = take j row.
Proof.
  intros Hnd Hj. unfold removed_row.
  rewrite (indexOf_lookup_NoDup x (take (S j) row) j).
  - apply delete_take_S.
  - eapply sublist_NoDup; [exact Hnd | apply sublist_take].
  - rewrite lookup_take_lt by lia. done.
Qed.

Section bulk.
Variable W : host.
Variables (o : nat) (e : string).
Hypothesis Hrem : didRemoveListener W o = None.
Variables (a : loc) (ms : list (option loc)).

(** One visit for a target that has a row. *)
Lemma remove_visit_row h T t m i r row :
  holds h o e a T ms →
  indexOf t T = Some i → nth_row ms i = Some r → h_rows h !! r = Some row →
  ∃ h', remove_visit W o e (t, m) tt h = Ret (false, tt) h'
        ∧ holds h' o e a
            (if decide (length (removed_row m row) = 0) then delete i T else T) ms
        ∧ h_rows h' = <[r := removed_row m row]> (h_rows h).
Proof using Hrem.
  destruct h as [ds acts rows meta]. cbn [h_rows]. intros Hh Hi Hr Hrow.
  destruct (_removeListener_row W o e Hrem ds acts rows meta a T ms t m i r row
              Hh Hi Hr Hrow) as (ds' & E & Hent).
  destruct Hh as [_ Ha]. cbn [h_acts] in Ha.
  eexists. split; [|split].
  - unfold remove_visit. cbn [fst snd]. rewrite (bind_Ret _ _ _ _ _ E). reflexivity.
  - apply holds_heap; [done|].
    destruct (decide (length (removed_row m row) = 0)); [|done].
    apply list_lookup_insert_eq. by eapply lookup_lt_Some.
  - reflexivity.
Qed.

(** One visit for the target [undefined], which has no row: the last
    target goes. *)
Lemma remove_visit_no_row h T m :
  holds h o e a T ms → VUndef ∉ T →
  ∃ h', remove_visit W o e (VUndef, m) tt h = Ret (false, tt) h'
        ∧ holds h' o e a (take (length T - 1) T) ms
        ∧ h_rows h' = h_rows h.
Proof using Hrem.
  destruct h as [ds acts rows meta]. cbn [h_rows]. intros Hh Hu.
  apply indexOf_None in Hu.
  destruct (_removeListener_no_row W o e Hrem ds acts rows meta a T ms VUndef m Hh)
    as (ds' & E & Hent); [by rewrite Hu|].
  destruct Hh as [_ Ha]. cbn [h_acts] in Ha.
  eexists. split; [|split].
  - unfold remove_visit. cbn [fst snd]. rewrite (bind_Ret _ _ _ _ _ E). reflexivity.
  - apply holds_heap; [done|]. rewrite Hu. cbn [splice1]. rewrite delete_last_take.
    apply list_lookup_insert_eq. by eapply lookup_lt_Some.
  - reflexivity.
Qed.

(** The inner loop on the row of a target that is in [targets]: every
    method of the row is removed, and with the last one the target. *)
Lemma bulk_row (ρ : list value) t i r T :
  NoDup ρ → Forall (fun x => truthy x = true) ρ →
  indexOf t T = Some i → nth_row ms i = Some r →
  ∀ (j : nat) h, (0 < j)%nat → (j ≤ length ρ)%nat →
    holds h o e a T ms → h_rows h !! r = Some (take j ρ) →
    ∃ h', iterate_row (remove_visit W o e) r t j tt h = Ret (false, tt) h'
          ∧ holds h' o e a (delete i T) ms
          ∧ h_rows h' = <[r := []]> (h_rows h).
Proof using Hrem.
  intros Hnd Htr Hi Hr. induction j as [|j IH]; intros h Hpos Hle Hh Hrow; [lia|].
  destruct (lookup_lt_is_Some_2 ρ j) as [x Hx]; [lia|].
  assert (truthy x = true) as Hxt by exact (Forall_lookup_1 _ _ _ _ Htr Hx).
  rewrite (iterate_row_step _ _ _ _ _ _ _ Hrow).
  unfold nth_value. rewrite lookup_take_lt by lia. rewrite Hx. cbn [default from_option id].
  rewrite Hxt.
  destruct (remove_visit_row h T t x i r (take (S j) ρ) Hh Hi Hr Hrow)
    as (h1 & E1 & Hh1 & Hrows1).
  rewrite (removed_row_take ρ j x Hnd Hx) in Hh1, Hrows1.
  rewrite (bind_Ret _ _ _ _ _ E1). cbn [fst snd].
  destruct j as [|j].
  - cbn [take length] in Hh1, Hrows1. rewrite decide_True in Hh1 by done.
    cbn [iterate_row ret]. eauto.
  - rewrite decide_False in Hh1 by (rewrite length_take; lia).
    destruct (IH h1) as (h' & E' & Hh' & Hrows'); [lia | lia | done | |].
    { rewrite Hrows1. apply list_lookup_insert_eq. by eapply lookup_lt_Some. }
    exists h'. split; [done|]. split; [done|].
    rewrite Hrows', Hrows1. apply list_insert_insert_eq.
Qed.

(** The inner loop when the target read from [targets] is [undefined]:
    the row stays and every visit drops the last target. *)
Lemma bulk_no_row (ρ : list value) r :
  Forall (fun x => truthy x = true) ρ →
  ∀ (j : nat) h T, (j ≤ length ρ)%nat →
    holds h o e a T ms → VUndef ∉ T → h_rows h !! r = Some ρ →
    ∃ h', iterate_row (remove_visit W o e) r VUndef j tt h = Ret (false, tt) h'
          ∧ holds h' o e a (take (length T - j) T) ms
          ∧ h_rows h' = h_rows h.
Proof using Hrem.
  intros Htr. induction j as [|j IH]; intros h T Hle Hh Hu Hrow.
  - exists h. cbn [iterate_row ret]. rewrite Nat.sub_0_r, firstn_all. done.
  - destruct (lookup_lt_is_Some_2 ρ j) as [x Hx]; [lia|].
    assert (truthy x = true) as Hxt by exact (Forall_lookup_1 _ _ _ _ Htr Hx).
    rewrite (iterate_row_step _ _ _ _ _ _ _ Hrow).
    unfold nth_value. rewrite Hx. cbn [default from_option id]. rewrite Hxt.
    destruct (remove_visit_no_row h T x Hh Hu) as (h1 & E1 & Hh1 & Hrows1).
    rewrite (bind_Ret _ _ _ _ _ E1). cbn [fst snd].
    destruct (IH h1 (take (length T - 1) T)) as (h' & E' & Hh' & Hrows'); [lia | done | | |].
    { intros Hin. apply Hu. eapply elem_of_sublist; [exact Hin | apply sublist_take]. }
    { by rewrite Hrows1. }
    exists h'. split; [done|]. split; [|by rewrite Hrows'].
    rewrite length_take, take_take in Hh'.
    replace (((length T - 1) `min` length T - j) `min` (length T - 1))
      with (length T - S j) in Hh' by lia.
    done.
Qed.
End bulk.

Section bulk_targets.
Variable W : host.
Variables (o : nat) (e : string).
Hypothesis Hrem : didRemoveListener W o = None.
Variables (a : loc) (ms : list (option loc)).
Hypothesis Hms : NoDup ms.

(** The outer loop from index [i]: the rows from [i] on are still as they
    were, [targets] has at most [length ms - i] elements, and every index
    takes at least one of them away. *)
Lemma bulk_targets :
  ∀ (n i : nat) h (T : list value),
    (i + n = length ms)%nat →
    holds h o e a T ms → NoDup T → VUndef ∉ T →
    (length T + i ≤ length ms)%nat →
    (∀ (k : nat) m, (i ≤ k)%nat → ms !! k = Some m →
       ∃ r row, m = Some r ∧ h_rows h !! r = Some row ∧ row ≠ []
                ∧ NoDup row ∧ Forall (fun x => truthy x = true) row) →
    ∃ h' T', iterate_targets (remove_visit W o e) a n i tt h = Ret (false, tt) h'
             ∧ holds h' o e a T' ms
             ∧ (length T' + (i + n) ≤ length ms)%nat.
Proof using Hrem Hms.
  induction n as [|n IH]; intros i h T Hin Hh Hnd Hu Hlen Hrows.
  - exists h, T. cbn [iterate_targets ret]. split; [done|]. split; [done | lia].
  - destruct (lookup_lt_is_Some_2 ms i) as [m Hm]; [lia|].
    destruct (Hrows i m) as (r & ρ & -> & Hrow & Hne & Hndρ & Htr); [lia | done |].
    assert (nth_row ms i = Some r) as Hr by (unfold nth_row; by rewrite Hm).
    pose proof Hh as [_ Ha].
    rewrite (iterate_targets_step _ a n i tt h _ T ms r ρ Ha eq_refl eq_refl Hr Hrow).
    assert (0 < length ρ)%nat as Hpos by (destruct ρ; [done | cbn; lia]).
    destruct (T !! i) as [t|] eqn:Ht.
    + (* the target at [i] is still there *)
      unfold nth_value. rewrite Ht. cbn [default from_option id].
      destruct (bulk_row W o e Hrem a ms ρ t i r T Hndρ Htr
                  (indexOf_lookup_NoDup _ _ _ Hnd Ht) Hr (length ρ) h Hpos (le_n _) Hh)
        as (h1 & E1 & Hh1 & Hrows1); [by rewrite firstn_all|].
      rewrite (bind_Ret _ _ _ _ _ E1). cbn [fst snd].
      destruct (IH (S i) h1 (delete i T)) as (h' & T' & E' & Hh' & Hlen'); [lia | done | | | | |].
      { eapply sublist_NoDup; [exact Hnd | apply sublist_delete]. }
      { intros Hin'. apply Hu. eapply elem_of_sublist; [exact Hin' | apply sublist_delete]. }
      { rewrite length_delete by eauto. apply lookup_lt_Some in Ht. lia. }
      { intros k m' Hk Hm'.
        destruct (Hrows k m') as (r' & ρ' & -> & Hrow' & Hrest); [lia | done |].
        exists r', ρ'. split; [done|]. split; [|done].
        rewrite Hrows1. rewrite list_lookup_insert_ne; [done|].
        intros ->. pose proof (NoDup_lookup _ _ _ _ Hms Hm Hm'). lia. }
      exists h', T'. split; [done|]. split; [done | lia].
    + (* [targets] has become shorter than [i] *)
      unfold nth_value. rewrite Ht. cbn [default from_option id].
      destruct (bulk_no_row W o e Hrem a ms ρ r Htr (length ρ) h T (le_n _) Hh Hu Hrow)
        as (h1 & E1 & Hh1 & Hrows1).
      rewrite (bind_Ret _ _ _ _ _ E1). cbn [fst snd].
      destruct (IH (S i) h1 (take (length T - length ρ) T))
        as (h' & T' & E' & Hh' & Hlen'); [lia | done | | | | |].
      { eapply sublist_NoDup; [exact Hnd | apply sublist_take]. }
      { intros Hin'. apply Hu. eapply elem_of_sublist; [exact Hin' | apply sublist_take]. }
      { rewrite length_take. lia. }
      { intros k m' Hk Hm'. rewrite Hrows1. apply (Hrows k m'); [lia | done]. }
      exists h', T'. split; [done|]. split; [done | lia].
Qed.
End bulk_targets.

(** On a set with two targets, the listener of the second target is not
    listed any more after [removeListener] has been called with the first
    target and no method. *)
Lemma removeListener_without_method_removes_other_targets :
  returned (listenersFor 1 "e" two_targets)
  = Some [(VObj 11, VFun 1); (VObj 12, VFun 2)]
  ∧ returned (removeListener plain_host 1 "e" (VObj 11) VUndef two_targets) = Some tt
  ∧ returned (listenersFor 1 "e"
       (after (removeListener plain_host 1 "e" (VObj 11) VUndef) two_targets))
    = Some [].
Proof. repeat split; vm_compute; reflexivity. Qed.

(** On a well-formed action set of any number of targets, the call
    without method returns normally and [listenersFor] is empty
    afterwards.  With two targets or more the loop gets there through
    the rows that [_removeListener] leaves behind: see
    [bulk_targets]. *)
Lemma removeListener_without_method_removes_all
    (W : host) (o : nat) (e : string) (t : value) (h : heap)
    (a : loc) (ts : list value) (ms : list (option loc)) :
  e ≠ "" →
  is_function t = false →
  didRemoveListener W o = None →
  holds h o e a ts ms →
  set_wf h ts ms →
  ∃ h', removeListener W o e t VUndef h = Ret tt h'
        ∧ listenersFor o e h' = Ret [] h'.
Proof.
  intros He Ht Hrem Hh (Hlen & Hnd & Hu & Hms & Hrows).
  rewrite (removeListener_no_method W o e t h He Ht).
  destruct (bulk_targets W o e Hrem a ms Hms (length ts) 0 h ts)
    as (h' & T' & E & Hh' & Hlen'); [lia | done | done | done | lia | |].
  { intros k m _ Hm. exact (Forall_lookup_1 _ _ _ _ Hrows Hm). }
  exists h'. split.
  - unfold bind. rewrite (iterateSet_holds _ h o e a ts ms tt Hh), E. reflexivity.
  - destruct T' as [|x T']; [|cbn in Hlen'; lia].
    by eapply listenersFor_no_targets.
Qed.



(** ** The theorems at concrete inputs *)

Ltac by_decision := apply (bool_decide_unpack _); vm_compute; exact I.

Lemma holds_two_targets :
  holds two_targets 1 "e" 0 [VObj 11; VObj 12] [Some 0; Some 1].
Proof.
  split; [exists 0; split|]; vm_compute; reflexivity.
Defined.

Lemma set_wf_two_targets :
  set_wf two_targets [VObj 11; VObj 12] [Some 0; Some 1].
Proof.
  split; [reflexivity|].
  split; [by_decision|].
  split; [by_decision|].
  split; [by_decision|].
  repeat apply Forall_cons_2; try apply Forall_nil_2.
  - exists 0, [VFun 1]. split; [reflexivity|]. split; [reflexivity|].
    split; [discriminate|]. split; [by_decision|].
    repeat constructor.
  - exists 1, [VFun 2]. split; [reflexivity|]. split; [reflexivity|].
    split; [discriminate|]. split; [by_decision|].
    repeat constructor.
Defined.

Lemma removeListener_without_method_removes_all_witness :
  holds two_targets 1 "e" 0 [VObj 11; VObj 12] [Some 0; Some 1]
  ∧ set_wf two_targets [VObj 11; VObj 12] [Some 0; Some 1]
  ∧ ∃ h', removeListener plain_host 1 "e" (VObj 11) VUndef two_targets = Ret tt h'
          ∧ listenersFor 1 "e" h' = Ret [] h'.
Proof.
  split; [exact holds_two_targets|]. split; [exact set_wf_two_targets|].
  apply (removeListener_without_method_removes_all plain_host 1 "e" (VObj 11) two_targets
           0 [VObj 11; VObj 12] [Some 0; Some 1]).
  - discriminate.
  - reflexivity.
  - reflexivity.
  - exact holds_two_targets.
  - exact set_wf_two_targets.
Defined.




Lemma targetSetDiff_merges_once_witness :
  event_name "e"
  ∧ no_entry (h_dirs empty_heap) (h_meta empty_heap) 1 "e"
  ∧ ∃ a acc h1 d1 h2 d2 h3,
      let h0 := after (addListener plain_host 1 "e" (VObj 12) (VFun 2))
                      (after (addListener plain_host 1 "e" (VObj 11) (VFun 1)) empty_heap) in
      let both := set_add (VObj 12) (VFun 2) [(VObj 11, [VFun 1])] in
      targetSetFor 1 "e" h0 = Some a
      ∧ set_rows h0 a = Some both
      ∧ accumulator_with (VObj 11) (VFun 1) h0 = Ret acc h1
      ∧ set_rows h1 acc = Some [(VObj 11, [VFun 1])]
      ∧ targetSetDiff 1 "e" acc h1 = Ret d1 h2
      ∧ set_rows h2 d1 = Some [(VObj 12, [VFun 2])]
      ∧ set_rows h2 acc = Some both
      ∧ set_rows h2 a = Some both
      ∧ targetSetDiff 1 "e" acc h2 = Ret d2 h3
      ∧ set_rows h3 d2 = Some []
      ∧ set_rows h3 acc = Some both
      ∧ set_rows h3 a = Some both.
Proof.
  split; [split; [discriminate | split; reflexivity]|].
  split; [exact I|].
  apply (targetSetDiff_merges_once plain_host 1 "e" (VObj 11) (VFun 1) (VObj 12) (VFun 2)
           empty_heap).
  - split; [discriminate | split; reflexivity].
  - reflexivity.
  - reflexivity.
  - reflexivity.
  - discriminate.
  - exact I.
Defined.


(** * Further properties of the registry *)

(** ** Iteration with a visitor that leaves the heap alone *)

Lemma visit_all_app {St} (f : action → St → bool * St) l1 l2 s :
  visit_all f (l1 ++ l2) s
  = if (visit_all f l1 s).1 then visit_all f l1 s
    else visit_all f l2 (visit_all f l1 s).2.
Proof.
  revert s. induction l1 as [|x l1 IH]; intros s; cbn [app visit_all fst snd]; [done|].
  destruct (f x s) as [[] s']; cbn [fst snd]; [done | apply IH].
Qed.

Lemma listed_row_snoc t row x :
  listed_row t (row ++ [x])
  = (if truthy x then [(t, x)] else []) ++ listed_row t row.
Proof.
  unfold listed_row. rewrite filter_app, rev_app_distr, fmap_app.
  f_equal. cbn [filter list_filter].
  destruct (truthy x) eqn:Hx.
  - rewrite decide_True by done. reflexivity.
  - rewrite decide_False by (by intros ?). reflexivity.
Qed.

Section pure_visit.
Context {St : Type}.
Variable cb : action → St → M (bool * St).
Variable f : action → St → bool * St.
Variable h : heap.
Hypothesis Hcb : ∀ act s, cb act s h = Ret (f act s) h.

Lemma iterate_row_pure r t row :
  h_rows h !! r = Some row →
  ∀ (j : nat) s, (j ≤ length row)%nat →
    iterate_row cb r t j s h = Ret (visit_all f (listed_row t (take j row)) s) h.
Proof using Hcb.
  intros Hrow. induction j as [|j IH]; intros s Hj.
  - reflexivity.
  - destruct (lookup_lt_is_Some_2 row j) as [x Hx]; [lia|].
    rewrite (iterate_row_step _ _ _ _ _ _ _ Hrow).
    rewrite (take_S_r _ _ _ Hx), listed_row_snoc.
    unfold nth_value. rewrite Hx. cbn [default from_option id].
    destruct (truthy x).
    + unfold bind. rewrite Hcb. cbn [app visit_all].
      destruct (f (t, x) s) as [[] s']; cbn [fst snd]; [reflexivity | apply IH; lia].
    + cbn [app]. apply IH. lia.
Qed.

Lemma iterate_targets_pure a src ts ms :
  h_acts h !! a = Some (Actions src (Some ts) (Some ms)) →
  rows_present h ts ms →
  ∀ (n i : nat) s, (i + n ≤ length ts)%nat →
    iterate_targets cb a n i s h
    = Ret (visit_all f (listed h (take n (drop i ts)) (drop i ms)) s) h.
Proof using Hcb.
  intros Ha Hrows. induction n as [|n IH]; intros i s Hin.
  - reflexivity.
  - destruct (Hrows i) as (r & row & Hr & Hrow); [lia|].
    destruct (lookup_lt_is_Some_2 ts i) as [t Ht]; [lia|].
    assert (ms !! i = Some (Some r)) as Hm.
    { unfold nth_row in Hr. destruct (ms !! i) as [[r'|]|]; cbn in Hr; congruence. }
    rewrite (iterate_targets_step _ a n i s h _ ts ms r row Ha eq_refl eq_refl Hr Hrow).
    unfold bind. rewrite (iterate_row_pure r _ row Hrow) by done.
    rewrite firstn_all.
    rewrite (drop_S _ _ _ Ht), (drop_S _ _ _ Hm).
    unfold listed. cbn [take zip_with mjoin list_join mbind option_bind]. rewrite Hrow.
    rewrite visit_all_app.
    unfold nth_value. rewrite Ht. cbn [default from_option id].
    destruct (visit_all f (listed_row t row) s) as [[] s']; cbn [fst snd ret]; [reflexivity|].
    apply IH. lia.
Qed.

Lemma iterateSet_pure o e a src ts ms s :
  entry (h_dirs h) (h_meta h) o e a →
  h_acts h !! a = Some (Actions src (Some ts) (Some ms)) →
  rows_present h ts ms →
  iterateSet cb (targetSetFor o e h) s h = Ret (visit_all f (listed h ts ms) s) h.
Proof using Hcb.
  intros Hent Ha Hrows. rewrite (targetSetFor_entry _ _ _ _ Hent).
  unfold iterateSet, read_acts, bind. rewrite Ha. cbn [a_targets].
  rewrite (iterate_targets_pure a src ts ms Ha Hrows) by (cbn; lia).
  by rewrite drop_0, firstn_all.
Qed.
End pure_visit.

Lemma visit_all_collect l (s : list action) :
  visit_all (fun act out => (false, out ++ [act])) l s = (false, s ++ l).
Proof.
  revert s. induction l as [|x l IH]; intros s; cbn [visit_all fst snd].
  - by rewrite app_nil_r.
  - rewrite IH. by rewrite <- app_assoc.
Qed.

Lemma visit_all_any (l : list action) :
  visit_all (fun (_ : action) (_ : unit) => (true, tt)) l tt
  = (match l with [] => false | _ => true end, tt).
Proof. by destruct l. Qed.

(** The branch of [hasListeners] after a scan that found nothing: the
    [null] marker is written in a directory of the owner. *)
Lemma hasListeners_marker h o e a :
  entry (h_dirs h) (h_meta h) o e a →
  iterateSet (fun (_ : action) (_ : unit) => ret (true, tt)) (targetSetFor o e h) tt h
  = Ret (false, tt) h →
  ∃ h' d, hasListeners o e h = Ret false h'
          ∧ h_meta h' !! o = Some d ∧ dir_get (h_dirs h') d e = Some None.
Proof.
  intros Hent Hit. destruct h as [ds acts rows meta].
  pose proof Hent as (d & Hm & Hd). cbn [h_dirs h_meta] in Hm, Hd.
  destruct (dir_get_is_Some _ _ _ _ Hd) as [D HD].
  unfold hasListeners, get_heap. unfold bind at 1. unfold bind at 1.
  rewrite Hit. cbn [fst].
  unfold metaPath_listeners, get_heap. unfold bind at 1. unfold bind at 1. unfold bind at 1.
  cbn [h_meta h_dirs]. rewrite Hm.
  destruct (decide (dir_source ds d = Some (VObj o))).
  - js_unfold. js_auto. eexists _, d. split; [reflexivity|]. cbn [h_meta h_dirs].
    split; [done | by apply dir_get_set].
  - js_unfold. js_auto. eexists _, (length ds). split; [reflexivity|]. cbn [h_meta h_dirs].
    split; [apply lookup_insert_eq | apply dir_get_snoc].
Qed.

Lemma listenersFor_listed h o e a src ts ms :
  entry (h_dirs h) (h_meta h) o e a →
  h_acts h !! a = Some (Actions src (Some ts) (Some ms)) →
  rows_present h ts ms →
  listenersFor o e h = Ret (listed h ts ms) h.
Proof.
  intros Hent Ha Hrows. unfold listenersFor, get_heap.
  unfold bind at 1. unfold bind at 1.
  rewrite (iterateSet_pure _ (fun act out => (false, out ++ [act])) h
             (fun _ _ => eq_refl) o e a src ts ms [] Hent Ha Hrows).
  by rewrite visit_all_collect.
Qed.

Lemma hasListeners_listed h o e a src ts ms :
  entry (h_dirs h) (h_meta h) o e a →
  h_acts h !! a = Some (Actions src (Some ts) (Some ms)) →
  rows_present h ts ms →
  listed h ts ms ≠ [] → hasListeners o e h = Ret true h.
Proof.
  intros Hent Ha Hrows Hne.
  pose proof (iterateSet_pure (fun (_ : action) (_ : unit) => ret (true, tt))
                (fun (_ : action) (_ : unit) => (true, tt)) h
                (fun _ _ => eq_refl) o e a src ts ms tt Hent Ha Hrows) as Hit.
  rewrite visit_all_any in Hit.
  unfold hasListeners, get_heap. unfold bind at 1. unfold bind at 1.
  rewrite Hit. by destruct (listed h ts ms).
Qed.

(** X1: [listenersFor] answers the pairs of the action set index by index,
    each target with the row at its index, and within a row from the
    method added last to the method added first; falsy entries of a row are
    left out.  The heap is not changed. *)
Theorem listenersFor_lists_rows_in_reverse
    (h : heap) (o : nat) (e : string) (a : loc) (src : option value)
    (ts : list value) (ms : list (option loc)) :
  entry (h_dirs h) (h_meta h) o e a →
  h_acts h !! a = Some (Actions src (Some ts) (Some ms)) →
  rows_present h ts ms →
  listenersFor o e h = Ret (listed h ts ms) h.
Proof. apply listenersFor_listed. Qed.

(** X2: [hasListeners] is [true] exactly when [listenersFor] has a pair to
    list.  When it is [true] the heap is not changed; when it is [false]
    the event is given the [null] marker and is no longer among the
    [watchedEvents]. *)
Theorem hasListeners_agrees_with_listenersFor
    (h : heap) (o : nat) (e : string) (a : loc) (src : option value)
    (ts : list value) (ms : list (option loc)) :
  entry (h_dirs h) (h_meta h) o e a →
  h_acts h !! a = Some (Actions src (Some ts) (Some ms)) →
  rows_present h ts ms →
  (listed h ts ms ≠ [] → hasListeners o e h = Ret true h)
  ∧ (listed h ts ms = [] →
     ∃ h', hasListeners o e h = Ret false h' ∧ e ∉ watchedEvents o h').
Proof.
  intros Hent Ha Hrows.
  pose proof (iterateSet_pure (fun (_ : action) (_ : unit) => ret (true, tt))
                (fun (_ : action) (_ : unit) => (true, tt)) h
                (fun _ _ => eq_refl) o e a src ts ms tt Hent Ha Hrows) as Hit.
  rewrite visit_all_any in Hit. split.
  - intros Hne. unfold hasListeners, get_heap. unfold bind at 1. unfold bind at 1.
    rewrite Hit. by destruct (listed h ts ms).
  - intros Hnil. rewrite Hnil in Hit.
    destruct (hasListeners_marker h o e a Hent Hit) as (h' & d & E & Hm & Hd).
    exists h'. split; [done | by eapply watchedEvents_null].
Qed.

Lemma rows_present_two_targets :
  rows_present two_targets [VObj 11; VObj 12] [Some 0; Some 1].
Proof.
  intros i Hi. destruct i as [|[|i]].
  - exists 0, [VFun 1]. split; reflexivity.
  - exists 1, [VFun 2]. split; reflexivity.
  - cbn in Hi. lia.
Defined.

Lemma listenersFor_lists_rows_in_reverse_witness :
  rows_present two_targets [VObj 11; VObj 12] [Some 0; Some 1]
  ∧ listenersFor 1 "e" two_targets
    = Ret (listed two_targets [VObj 11; VObj 12] [Some 0; Some 1]) two_targets.
Proof.
  split; [exact rows_present_two_targets|].
  apply (listenersFor_lists_rows_in_reverse two_targets 1 "e" 0 (Some (VObj 1))).
  - exists 0. split; vm_compute; reflexivity.
  - vm_compute; reflexivity.
  - exact rows_present_two_targets.
Defined.

Lemma hasListeners_agrees_with_listenersFor_witness :
  rows_present two_targets [VObj 11; VObj 12] [Some 0; Some 1]
  ∧ (listed two_targets [VObj 11; VObj 12] [Some 0; Some 1] ≠ [] →
     hasListeners 1 "e" two_targets = Ret true two_targets)
  ∧ (listed two_targets [VObj 11; VObj 12] [Some 0; Some 1] = [] →
     ∃ h', hasListeners 1 "e" two_targets = Ret false h' ∧ "e" ∉ watchedEvents 1 h').
Proof.
  split; [exact rows_present_two_targets|].
  apply (hasListeners_agrees_with_listenersFor two_targets 1 "e" 0 (Some (VObj 1))).
  - exists 0. split; vm_compute; reflexivity.
  - vm_compute; reflexivity.
  - exact rows_present_two_targets.
Defined.

(** ** Registration *)

(** A set of one target with one row, as the first [addListener] leaves
    it. *)
Lemma rows_present_single ds acts rows meta (t : value) (row : list value) :
  rows_present (Heap ds acts (rows ++ [row]) meta) [t] [Some (length rows)].
Proof.
  intros i Hi. destruct i as [|i]; [|cbn in Hi; lia].
  exists (length rows), row. split; [reflexivity | apply lookup_snoc].
Qed.

Lemma listed_single ds acts rows meta (t : value) (row : list value) :
  listed (Heap ds acts (rows ++ [row]) meta) [t] [Some (length rows)]
  = listed_row t row.
Proof.
  unfold listed. cbn [zip_with mbind option_bind h_rows]. rewrite lookup_snoc.
  cbn [mjoin list_join]. apply app_nil_r.
Qed.

Lemma listed_row_one t m : truthy m = true → listed_row t [m] = [(t, m)].
Proof.
  intros Hm. unfold listed_row. cbn [filter list_filter].
  rewrite decide_True by done. reflexivity.
Qed.

(** X3: registration is idempotent.  The event name is non-empty, other
    than [__ember_source__] and not a property name of
    [Object.prototype], and the owner has no actions object for it yet
    (no directory, or a directory that resolves the name to nothing or to
    [null]).
    The owner has no [didAddListener] hook.  After a first
    [addListener] with a truthy method, a second one with the same
    arguments changes neither the actions objects nor the rows, and
    [listenersFor] lists the pair once after each. *)
Theorem addListener_twice_registers_once
    (W : host) (o : nat) (e : string) (t m : value) (h : heap) :
  event_name e →
  truthy m = true →
  didAddListener W o = None →
  no_entry (h_dirs h) (h_meta h) o e →
  ∃ h1 h2,
    addListener W o e t m h = Ret tt h1
    ∧ addListener W o e t m h1 = Ret tt h2
    ∧ h_acts h2 = h_acts h1
    ∧ h_rows h2 = h_rows h1
    ∧ listenersFor o e h1 = Ret [(t, m)] h1
    ∧ listenersFor o e h2 = Ret [(t, m)] h2.
Proof.
  intros (He & Hs & _) Hm Hadd Hno. destruct h as [ds acts rows meta]. cbn [h_dirs h_meta] in Hno.
  destruct (addListener_first W o e He Hadd ds acts rows meta t m (shuffle_truthy _ _ Hm) Hno)
    as (ds1 & meta1 & E1 & Hent1).
  set (A := Actions (Some (VObj o)) (Some [t]) (Some [Some (length rows)])) in *.
  destruct (addListener_present W o e He Hadd ds1 (acts ++ [A]) (rows ++ [[m]]) meta1
              (length acts) [t] [Some (length rows)] t m 0 (length rows) [m] 0
              (shuffle_truthy _ _ Hm))
    as (ds2 & E2 & Hent2).
  { apply holds_heap; [done | apply lookup_snoc]. }
  { apply indexOf_here. }
  { done. }
  { apply lookup_snoc. }
  { apply indexOf_here. }
  eexists _, _. split; [exact E1|]. split; [exact E2|].
  split; [reflexivity|]. split; [reflexivity|].
  split.
  - rewrite (listenersFor_listed _ o e (length acts) (Some (VObj o)) [t] [Some (length rows)]);
      [| done | apply lookup_snoc | apply rows_present_single].
    by rewrite listed_single, listed_row_one.
  - rewrite (listenersFor_listed _ o e (length acts) (Some (VObj o)) [t] [Some (length rows)]);
      [| done | apply lookup_snoc | apply rows_present_single].
    by rewrite listed_single, listed_row_one.
Qed.

Lemma addListener_twice_registers_once_witness :
  no_entry (h_dirs empty_heap) (h_meta empty_heap) 1 "e"
  ∧ ∃ h1 h2,
      addListener plain_host 1 "e" (VObj 11) (VFun 1) empty_heap = Ret tt h1
      ∧ addListener plain_host 1 "e" (VObj 11) (VFun 1) h1 = Ret tt h2
      ∧ h_acts h2 = h_acts h1
      ∧ h_rows h2 = h_rows h1
      ∧ listenersFor 1 "e" h1 = Ret [(VObj 11, VFun 1)] h1
      ∧ listenersFor 1 "e" h2 = Ret [(VObj 11, VFun 1)] h2.
Proof.
  split; [exact I|].
  apply (addListener_twice_registers_once plain_host 1 "e" (VObj 11) (VFun 1) empty_heap).
  - split; [discriminate | split; reflexivity].
  - reflexivity.
  - reflexivity.
  - exact I.
Defined.

(** [hasListeners] for an owner without listeners on the event: the answer
    is [false], the marker is written, and the owner still has no
    listeners on the event. *)
Lemma hasListeners_no_entry ds acts rows meta o e :
  no_entry ds meta o e →
  ∃ ds' meta',
    hasListeners o e (Heap ds acts rows meta) = Ret false (Heap ds' acts rows meta')
    ∧ no_entry ds' meta' o e
    ∧ e ∉ watchedEvents o (Heap ds' acts rows meta').
Proof.
  unfold no_entry. intros Hno.
  assert (targetSetFor o e (Heap ds acts rows meta) = None) as Hts.
  { unfold targetSetFor. cbn [h_meta h_dirs]. destruct (meta !! o) as [d|]; [|done].
    destruct Hno as [_ Hd]. by destruct (dir_get ds d e) as [[?|]|]. }
  unfold hasListeners, get_heap. unfold bind at 1. unfold bind at 1.
  rewrite Hts. cbn [iterateSet ret fst].
  unfold metaPath_listeners, get_heap. unfold bind at 1. unfold bind at 1. unfold bind at 1.
  cbn [h_meta h_dirs].
  destruct (meta !! o) as [d|] eqn:Hm.
  - destruct Hno as [[D HD] _].
    destruct (decide (dir_source ds d = Some (VObj o))).
    + js_unfold. js_auto. eexists _, meta. split; [reflexivity|].
      assert (dir_get (<[d := Dir (d_proto D) (d_source D) (assoc_set e None (d_events D))]> ds)
                d e = Some None) as Hd by (by apply dir_get_set).
      split.
      * rewrite Hm. split; [|by rewrite Hd].
        apply lookup_lt_is_Some. rewrite length_insert. by eapply lookup_lt_Some.
      * by eapply watchedEvents_null.
    + js_unfold. js_auto. cbn [assoc_set]. eexists _, _. split; [reflexivity|].
      split.
      * rewrite lookup_insert_eq. split; [|by rewrite dir_get_snoc].
        rewrite lookup_snoc. eauto.
      * eapply (watchedEvents_null _ _ _ (length ds));
          [apply lookup_insert_eq | apply dir_get_snoc].
  - js_unfold. js_auto. cbn [assoc_set]. eexists _, _. split; [reflexivity|].
    split.
    + rewrite lookup_insert_eq. split; [|by rewrite dir_get_snoc].
      rewrite lookup_snoc. eauto.
    + eapply (watchedEvents_null _ _ _ (length ds));
        [apply lookup_insert_eq | apply dir_get_snoc].
Qed.

(** X4: the [null] marker that a negative [hasListeners] leaves behind is
    treated as absent by the next [addListener].  The event name is non-empty, other
    than [__ember_source__] and not a property name of
    [Object.prototype], and the owner has no actions object for it yet
    (no directory, or a directory that resolves the name to nothing or to
    [null]).
    The owner has no [didAddListener] hook.
    [hasListeners] answers [false], and the event is not watched
    afterwards; after the registration of a pair with a truthy method it
    is watched, [hasListeners] is [true] without changing the heap, and
    [listenersFor] lists the pair. *)
Theorem addListener_overwrites_marker
    (W : host) (o : nat) (e : string) (t m : value) (h : heap) :
  event_name e →
  truthy m = true →
  didAddListener W o = None →
  no_entry (h_dirs h) (h_meta h) o e →
  ∃ h1 h2,
    hasListeners o e h = Ret false h1
    ∧ (e ∉ watchedEvents o h1)
    ∧ addListener W o e t m h1 = Ret tt h2
    ∧ e ∈ watchedEvents o h2
    ∧ hasListeners o e h2 = Ret true h2
    ∧ listenersFor o e h2 = Ret [(t, m)] h2.
Proof.
  intros (He & Hs & _) Hm Hadd Hno. destruct h as [ds acts rows meta]. cbn [h_dirs h_meta] in Hno.
  destruct (hasListeners_no_entry ds acts rows meta o e Hno)
    as (ds1 & meta1 & E1 & Hno1 & Hw1).
  destruct (addListener_first W o e He Hadd ds1 acts rows meta1 t m (shuffle_truthy _ _ Hm) Hno1)
    as (ds2 & meta2 & E2 & Hent2).
  set (A := Actions (Some (VObj o)) (Some [t]) (Some [Some (length rows)])) in *.
  set (h2 := Heap ds2 (acts ++ [A]) (rows ++ [[m]]) meta2) in *.
  assert (listed h2 [t] [Some (length rows)] = [(t, m)]) as Hl.
  { unfold h2. by rewrite listed_single, listed_row_one. }
  exists (Heap ds1 acts rows meta1), h2.
  split; [exact E1|]. split; [exact Hw1|]. split; [exact E2|].
  split; [by eapply watchedEvents_entry|].
  split.
  - apply (hasListeners_listed h2 o e (length acts) (Some (VObj o)) [t] [Some (length rows)]);
      [done | apply lookup_snoc | apply rows_present_single | by rewrite Hl].
  - rewrite (listenersFor_listed h2 o e (length acts) (Some (VObj o)) [t] [Some (length rows)]);
      [by rewrite Hl | done | apply lookup_snoc | apply rows_present_single].
Qed.

Lemma addListener_overwrites_marker_witness :
  no_entry (h_dirs empty_heap) (h_meta empty_heap) 1 "e"
  ∧ ∃ h1 h2,
      hasListeners 1 "e" empty_heap = Ret false h1
      ∧ ("e" ∉ watchedEvents 1 h1)
      ∧ addListener plain_host 1 "e" (VObj 11) (VFun 1) h1 = Ret tt h2
      ∧ "e" ∈ watchedEvents 1 h2
      ∧ hasListeners 1 "e" h2 = Ret true h2
      ∧ listenersFor 1 "e" h2 = Ret [(VObj 11, VFun 1)] h2.
Proof.
  split; [exact I|].
  apply (addListener_overwrites_marker plain_host 1 "e" (VObj 11) (VFun 1) empty_heap).
  - split; [discriminate | split; reflexivity].
  - reflexivity.
  - reflexivity.
  - exact I.
Defined.

(** ** Dispatch to one listener *)

(** [sendEvent] on a set of one target with one truthy method is one
    [invokeAction], whatever the listener does. *)
Lemma sendEvent_single W o e t m params ds acts rows meta :
  sendEvent_hook W o = None →
  truthy m = true →
  entry ds meta o e (length acts) →
  let A := Actions (Some (VObj o)) (Some [t]) (Some [Some (length rows)]) in
  let h1 := Heap ds (acts ++ [A]) (rows ++ [[m]]) meta in
  sendEvent W o e params None h1
  = (invokeAction W (t, m) params (VObj o) ;; ret [(t, m)]) h1.
Proof.
  intros Hsend Hm Hent A h1.
  assert (holds h1 o e (length acts) [t] [Some (length rows)]) as Hh.
  { apply holds_heap; [done | apply lookup_snoc]. }
  unfold sendEvent. rewrite Hsend.
  replace (if decide (o ≠ Ember W) then ret () else ret ()) with (ret tt : M unit)
    by (by destruct (decide (o ≠ Ember W))).
  unfold bind at 1. cbn [ret]. unfold bind at 1. cbn [get_heap]. unfold bind at 1.
  rewrite (iterateSet_holds _ _ o e _ [t] [Some (length rows)] [] Hh).
  cbn [length].
  unfold h1 at 1.
  erewrite iterate_targets_step; [|apply lookup_snoc|done|done|done|apply lookup_snoc].
  cbn [length nth_value lookup list_lookup default from_option id].
  unfold bind at 1.
  erewrite iterate_row_step by apply lookup_snoc.
  cbn [nth_value lookup list_lookup default from_option id]. rewrite Hm.
  unfold bind. fold h1.
  destruct (invokeAction W (t, m) params (VObj o) h1) as [u h'|x h']; reflexivity.
Qed.

(** X5: a function registered without target
    ([addListener(obj, name, f)]).  The event name is non-empty, other
    than [__ember_source__] and not a property name of
    [Object.prototype], and the owner has no actions object for it yet
    (no directory, or a directory that resolves the name to nothing or to
    [null]).
    The owner has no [didAddListener] and no [sendEvent] hook.  After the
    registration, [sendEvent] is one call of the function, with the owner
    as [this] and with the params, or with no argument when there are
    none: the outcome of [sendEvent] is the outcome of that call, heap
    and exception included, with the one pair as the list of the
    actions invoked. *)
Theorem sendEvent_calls_function_on_owner
    (W : host) (o : nat) (e : string) (f : nat)
    (params : option (list value)) (h : heap) :
  event_name e →
  didAddListener W o = None →
  sendEvent_hook W o = None →
  no_entry (h_dirs h) (h_meta h) o e →
  ∃ h1,
    addListener W o e (VFun f) VUndef h = Ret tt h1
    ∧ sendEvent W o e params None h1
      = (call W f (VObj o) (default [] params) ;; ret [(VNull, VFun f)]) h1.
Proof.
  intros (He & Hs & _) Hadd Hsend Hno. destruct h as [ds acts rows meta]. cbn [h_dirs h_meta] in Hno.
  destruct (addListener_first W o e He Hadd ds acts rows meta VNull (VFun f) eq_refl Hno)
    as (ds1 & meta1 & E1 & Hent1).
  eexists. split; [exact E1|].
  rewrite (sendEvent_single W o e VNull (VFun f) params ds1 acts rows meta1 Hsend eq_refl Hent1).
  unfold invokeAction. cbn [fst snd truthy]. unfold bind.
  destruct (call W f (VObj o) (default [] params) _); reflexivity.
Qed.

Lemma sendEvent_calls_function_on_owner_witness :
  no_entry (h_dirs empty_heap) (h_meta empty_heap) 1 "e"
  ∧ ∃ h1,
      addListener named_method_host 1 "e" (VFun 1) VUndef empty_heap = Ret tt h1
      ∧ sendEvent named_method_host 1 "e" (Some [VStr "ok"]) None h1
        = (call named_method_host 1 (VObj 1) (default [] (Some [VStr "ok"]))
           ;; ret [(VNull, VFun 1)]) h1.
Proof.
  split; [exact I|].
  apply (sendEvent_calls_function_on_owner named_method_host 1 "e" 1 (Some [VStr "ok"]) empty_heap).
  - split; [discriminate | split; reflexivity].
  - reflexivity.
  - reflexivity.
  - exact I.
Defined.

(** X6: a listener may be given by the name of a method.  On an event
    name that is non-empty, other than [__ember_source__] and not a
    property name of [Object.prototype], and for which the owner has no
    actions object yet and no [didAddListener] or [sendEvent] hook, [addListener] stores the name, and [listenersFor]
    lists it as it was given; [sendEvent] reads the property of that name
    on the target, and calls what it finds with the target as [this];
    when the property is not a function the dispatch fails with a
    [TypeError]. *)
Theorem sendEvent_calls_named_method
    (W : host) (o : nat) (e : string) (t : value) (s : string)
    (params : option (list value)) (h : heap) :
  event_name e → s ≠ "" →
  truthy t = true →
  didAddListener W o = None →
  sendEvent_hook W o = None →
  no_entry (h_dirs h) (h_meta h) o e →
  ∃ h1,
    addListener W o e t (VStr s) h = Ret tt h1
    ∧ listenersFor o e h1 = Ret [(t, VStr s)] h1
    ∧ sendEvent W o e params None h1
      = match prop W t s with
        | VFun f => (call W f t (default [] params) ;; ret [(t, VStr s)]) h1
        | _ => Throw TypeError h1
        end.
Proof.
  intros (He & Hs & _) Hns Ht Hadd Hsend Hno. destruct h as [ds acts rows meta].
  cbn [h_dirs h_meta] in Hno.
  assert (truthy (VStr s) = true) as Hm.
  { cbn. by rewrite bool_decide_eq_false_2. }
  destruct (addListener_first W o e He Hadd ds acts rows meta t (VStr s)
              (shuffle_truthy _ _ Hm) Hno)
    as (ds1 & meta1 & E1 & Hent1).
  eexists. split; [exact E1|]. split.
  { rewrite (listenersFor_listed _ o e (length acts) (Some (VObj o)) [t] [Some (length rows)]);
      [| done | apply lookup_snoc | apply rows_present_single].
    by rewrite listed_single, listed_row_one. }
  rewrite (sendEvent_single W o e t (VStr s) params ds1 acts rows meta1 Hsend Hm Hent1).
  unfold invokeAction. cbn [fst snd]. rewrite Ht. unfold bind.
  destruct (prop W t s) as [| | |f|]; try reflexivity.
  destruct (call W f t (default [] params) _); reflexivity.
Qed.

Lemma sendEvent_calls_named_method_witness :
  prop named_method_host (VObj 11) "didLoad" = VFun 7
  ∧ ∃ h1,
      addListener named_method_host 1 "e" (VObj 11) (VStr "didLoad") empty_heap = Ret tt h1
      ∧ listenersFor 1 "e" h1 = Ret [(VObj 11, VStr "didLoad")] h1
      ∧ sendEvent named_method_host 1 "e" None None h1
        = match prop named_method_host (VObj 11) "didLoad" with
          | VFun f => (call named_method_host f (VObj 11) (default [] None)
                       ;; ret [(VObj 11, VStr "didLoad")]) h1
          | _ => Throw TypeError h1
          end.
Proof.
  split; [reflexivity|].
  apply (sendEvent_calls_named_method named_method_host 1 "e" (VObj 11) "didLoad" None
           empty_heap).
  - split; [discriminate | split; reflexivity].
  - discriminate.
  - reflexivity.
  - reflexivity.
  - reflexivity.
  - exact I.
Defined.

(** X7: a listener may register another one during the dispatch.
    The event name is non-empty, other
    than [__ember_source__] and not a property name of
    [Object.prototype], and the owner has no actions object for it yet
    (no directory, or a directory that resolves the name to nothing or to
    [null]).
    The owner has no [didAddListener] and no [sendEvent] hook.  The function [f1] is registered without target,
    and its body registers [f2] on the same event.  [sendEvent] calls
    [f1] and not [f2], and [f2] is listed afterwards, before [f1]. *)
Theorem sendEvent_does_not_call_listener_added_meanwhile
    (W : host) (o : nat) (e : string) (f1 f2 : nat)
    (params : option (list value)) (h : heap) :
  event_name e → f1 ≠ f2 →
  didAddListener W o = None →
  sendEvent_hook W o = None →
  no_entry (h_dirs h) (h_meta h) o e →
  (∀ this args h',
     call W f1 this args h'
     = (addListener W o e VNull (VFun f2) ;; ret VUndef) h') →
  ∃ h1 h2,
    addListener W o e VNull (VFun f1) h = Ret tt h1
    ∧ sendEvent W o e params None h1 = Ret [(VNull, VFun f1)] h2
    ∧ listenersFor o e h2 = Ret [(VNull, VFun f2); (VNull, VFun f1)] h2.
Proof.
  intros (He & Hs & _) H12 Hadd Hsend Hno Hbody. destruct h as [ds acts rows meta].
  cbn [h_dirs h_meta] in Hno.
  destruct (addListener_first W o e He Hadd ds acts rows meta VNull (VFun f1) eq_refl Hno)
    as (ds1 & meta1 & E1 & Hent1).
  set (A := Actions (Some (VObj o)) (Some [VNull]) (Some [Some (length rows)])) in *.
  edestruct (addListener_row W o e He Hadd ds1 (acts ++ [A]) (rows ++ [[VFun f1]]) meta1
               (length acts) [VNull] [Some (length rows)] VNull (VFun f2) 0 (length rows)
               [VFun f1] eq_refl) as (ds2 & E2 & Hent2).
  { apply holds_heap; [done | apply lookup_snoc]. }
  { apply indexOf_here. }
  { done. }
  { apply lookup_snoc. }
  { rewrite indexOf_there by congruence. done. }
  rewrite insert_snoc in E2. cbn [app] in E2. subst A.
  eexists _, _. split; [exact E1|]. split.
  - rewrite (sendEvent_single W o e VNull (VFun f1) params ds1 acts rows meta1 Hsend eq_refl Hent1).
    unfold invokeAction. cbn [fst snd truthy]. unfold bind. rewrite Hbody.
    unfold bind. rewrite E2. reflexivity.
  - rewrite (listenersFor_listed _ o e (length acts) (Some (VObj o)) [VNull]
               [Some (length rows)]);
      [| done | apply lookup_snoc | apply rows_present_single].
    rewrite listed_single. reflexivity.
Qed.

Lemma sendEvent_does_not_call_listener_added_meanwhile_witness :
  no_entry (h_dirs empty_heap) (h_meta empty_heap) 1 "e"
  ∧ ∃ h1 h2,
      let W := host_of_bodies
                 (fun g => if decide (g = 1)
                           then addListener plain_host 1 "e" VNull (VFun 2)
                           else ret tt) in
      addListener W 1 "e" VNull (VFun 1) empty_heap = Ret tt h1
      ∧ sendEvent W 1 "e" None None h1 = Ret [(VNull, VFun 1)] h2
      ∧ listenersFor 1 "e" h2 = Ret [(VNull, VFun 2); (VNull, VFun 1)] h2.
Proof.
  split; [exact I|].
  apply (sendEvent_does_not_call_listener_added_meanwhile
           (host_of_bodies
              (fun g => if decide (g = 1)
                        then addListener plain_host 1 "e" VNull (VFun 2)
                        else ret tt))
           1 "e" 1 2 None empty_heap).
  - split; [discriminate | split; reflexivity].
  - lia.
  - reflexivity.
  - reflexivity.
  - exact I.
  - intros this args h'. reflexivity.
Defined.

(** X8: a failure of a listener is the outcome of [sendEvent].
    The event name is non-empty, other
    than [__ember_source__] and not a property name of
    [Object.prototype], and the owner has no actions object for it yet
    (no directory, or a directory that resolves the name to nothing or to
    [null]).
    The owner has no [didAddListener] and no [sendEvent] hook.  Two functions are registered without target;
    the one registered last is visited first; when it throws,
    [sendEvent] throws the same value on the heap that the listener
    left, and the function registered first is not called. *)
Theorem sendEvent_propagates_listener_failure
    (W : host) (o : nat) (e : string) (f1 f2 : nat)
    (params : option (list value)) (h : heap) (x : exn) (h3 : heap) :
  event_name e → f1 ≠ f2 →
  didAddListener W o = None →
  sendEvent_hook W o = None →
  no_entry (h_dirs h) (h_meta h) o e →
  call W f2 (VObj o) (default [] params)
    (after (addListener W o e VNull (VFun f2))
       (after (addListener W o e VNull (VFun f1)) h))
  = Throw x h3 →
  sendEvent W o e params None
    (after (addListener W o e VNull (VFun f2))
       (after (addListener W o e VNull (VFun f1)) h))
  = Throw x h3.
Proof.
  intros (He & Hs & _) H12 Hadd Hsend Hno. destruct h as [ds acts rows meta].
  cbn [h_dirs h_meta] in Hno.
  destruct (addListener_first W o e He Hadd ds acts rows meta VNull (VFun f1) eq_refl Hno)
    as (ds1 & meta1 & E1 & Hent1).
  edestruct (addListener_row W o e He Hadd ds1
               (acts ++ [Actions (Some (VObj o)) (Some [VNull]) (Some [Some (length rows)])])
               (rows ++ [[VFun f1]]) meta1
               (length acts) [VNull] [Some (length rows)] VNull (VFun f2) 0 (length rows)
               [VFun f1] eq_refl) as (ds2 & E2 & Hent2).
  { apply holds_heap; [done | apply lookup_snoc]. }
  { apply indexOf_here. }
  { done. }
  { apply lookup_snoc. }
  { rewrite indexOf_there by congruence. done. }
  rewrite insert_snoc in E2. cbn [app] in E2.
  unfold after. rewrite E1. cbn [heap_of]. rewrite E2. cbn [heap_of].
  intros Hthrow.
  unfold sendEvent. rewrite Hsend.
  replace (if decide (o ≠ Ember W) then ret () else ret ()) with (ret tt : M unit)
    by (by destruct (decide (o ≠ Ember W))).
  unfold bind at 1. cbn [ret]. unfold bind at 1. cbn [get_heap]. unfold bind at 1.
  rewrite (iterateSet_holds _ _ o e (length acts) [VNull] [Some (length rows)])
    by (apply holds_heap; [done | apply lookup_snoc]).
  cbn [length].
  erewrite iterate_targets_step; [|apply lookup_snoc|done|done|done|apply lookup_snoc].
  cbn [length nth_value lookup list_lookup default from_option id].
  unfold bind at 1.
  erewrite iterate_row_step by apply lookup_snoc.
  cbn [nth_value lookup list_lookup default from_option id truthy].
  unfold bind at 1. unfold bind at 1. unfold invokeAction at 1.
  cbn [fst snd truthy]. unfold bind at 1.
  rewrite Hthrow. reflexivity.
Qed.

Lemma sendEvent_propagates_listener_failure_witness :
  let W := host_of_bodies
             (fun g => if decide (g = 2) then throw (Thrown (VStr "boom")) else ret tt) in
  let h2 := after (addListener W 1 "e" VNull (VFun 2))
                  (after (addListener W 1 "e" VNull (VFun 1)) empty_heap) in
  call W 2 (VObj 1) (default [] None) h2 = Throw (Thrown (VStr "boom")) h2
  ∧ sendEvent W 1 "e" None None h2 = Throw (Thrown (VStr "boom")) h2.
Proof.
  split; [vm_compute; reflexivity|].
  apply (sendEvent_propagates_listener_failure
           (host_of_bodies
              (fun g => if decide (g = 2) then throw (Thrown (VStr "boom")) else ret tt))
           1 "e" 1 2 None empty_heap).
  - split; [discriminate | split; reflexivity].
  - lia.
  - reflexivity.
  - reflexivity.
  - exact I.
  - vm_compute; reflexivity.
Defined.

(** ** Dispatch to a listener that removes itself *)

Lemma listed_one_row h (t : value) (r : loc) (row : list value) :
  h_rows h !! r = Some row →
  rows_present h [t] [Some r] ∧ listed h [t] [Some r] = listed_row t row.
Proof.
  intros Hr. split.
  - intros [|i] Hi; [|cbn in Hi; lia]. by exists r, row.
  - unfold listed. cbn. rewrite Hr. apply app_nil_r.
Qed.

(** A function that records its call leaves every actions object and
    every array as they are. *)
Lemma recording_call_keeps_set o e f this : keeps_set o e (recording_call f this).
Proof.
  intros [ds acts rows meta] a ts ms Hh.
  exists VUndef, (Heap ds acts (rows ++ [[VFun f; this]]) meta).
  split; [reflexivity|]. split; [exact Hh|].
  intros r row Hr. cbn [h_rows] in *. by apply lookup_app_l_Some.
Qed.

(** X16: a listener that removes itself during the dispatch.  The event
    name is non-empty, other than [__ember_source__] and not a property
    name of [Object.prototype], and the owner has no actions object for
    it yet and none of the hooks [didAddListener], [didRemoveListener]
    and [sendEvent]; the functions [f1], [f2], [f3] are registered in that order,
    without target; the body of [f2] is
    [removeListener(owner, e, null, f2)], and [f1] and [f3] return and
    leave the actions objects and the arrays as they are (they may
    allocate).  Then [sendEvent] is the three calls, of [f3], of [f2]
    and of [f1] in that order, each once, with the owner as [this] and
    the parameters of the event; afterwards [listenersFor] lists [f3]
    and [f1]. *)
Theorem sendEvent_reentrant_self_removal
    (W : host) (o : nat) (e : string) (f1 f2 f3 : nat)
    (params : option (list value)) (h : heap) :
  event_name e → f1 ≠ f2 → f1 ≠ f3 → f2 ≠ f3 →
  didAddListener W o = None →
  didRemoveListener W o = None →
  sendEvent_hook W o = None →
  no_entry (h_dirs h) (h_meta h) o e →
  keeps_set o e (call W f1 (VObj o) (default [] params)) →
  keeps_set o e (call W f3 (VObj o) (default [] params)) →
  (∀ this args h',
     call W f2 this args h'
     = (removeListener W o e VNull (VFun f2) ;; ret VUndef) h') →
  let h3 := after (addListener W o e VNull (VFun f3))
              (after (addListener W o e VNull (VFun f2))
                 (after (addListener W o e VNull (VFun f1)) h)) in
  sendEvent W o e params None h3
  = (call W f3 (VObj o) (default [] params) ;;
     call W f2 (VObj o) (default [] params) ;;
     call W f1 (VObj o) (default [] params) ;;
     ret [(VNull, VFun f3); (VNull, VFun f2); (VNull, VFun f1)]) h3
  ∧ listenersFor o e (after (sendEvent W o e params None) h3)
    = Ret [(VNull, VFun f3); (VNull, VFun f1)]
          (after (sendEvent W o e params None) h3).
Proof.
  intros (He & Hs & _) H12 H13 H23 Hadd Hrem Hsend Hno Hq1 Hq3 Hbody.
  destruct h as [ds acts rows meta]. cbn [h_dirs h_meta] in Hno.
  destruct (three_listeners_heap W o e f1 f2 f3 He Hadd H12 H13 H23 ds acts rows meta Hno)
    as (ds3 & meta3 & E3 & Hent).
  cbn zeta. rewrite E3. clear E3.
  set (A := Actions (Some (VObj o)) (Some [VNull]) (Some [Some (length rows)])).
  set (h3 := Heap ds3 (acts ++ [A]) (rows ++ [[VFun f1; VFun f2; VFun f3]]) meta3).
  assert (holds h3 o e (length acts) [VNull] [Some (length rows)]) as Hh3.
  { apply holds_heap; [done | apply lookup_snoc]. }
  assert (h_rows h3 !! length rows = Some [VFun f1; VFun f2; VFun f3]) as Hr3
    by apply lookup_snoc.
  (* the call of f3 *)
  destruct (Hq3 h3 _ _ _ Hh3) as (v3 & h4 & E4 & Hh4 & Hk4).
  pose proof (Hk4 _ _ Hr3) as Hr4.
  (* the call of f2 *)
  destruct h4 as [ds4 acts4 rows4 meta4]. cbn [h_rows] in Hr4.
  destruct (_removeListener_row W o e Hrem ds4 acts4 rows4 meta4 (length acts)
              [VNull] [Some (length rows)] VNull (VFun f2) 0 (length rows)
              [VFun f1; VFun f2; VFun f3] Hh4 (indexOf_here _ _) eq_refl Hr4)
    as (ds5 & E5 & Hent5).
  assert (removed_row (VFun f2) [VFun f1; VFun f2; VFun f3] = [VFun f1; VFun f3]) as Erow.
  { unfold removed_row. rewrite indexOf_there by congruence. by rewrite indexOf_here. }
  rewrite Erow in E5. cbn [length] in E5. rewrite decide_False in E5 by done.
  match type of E5 with _ = Ret tt ?H => remember H as h5 eqn:Eh5 in E5 end.
  assert (holds h5 o e (length acts) [VNull] [Some (length rows)]) as Hh5.
  { rewrite Eh5. apply holds_heap; [done | apply Hh4]. }
  assert (h_rows h5 !! length rows = Some [VFun f1; VFun f3]) as Hr5.
  { rewrite Eh5. apply list_lookup_insert_eq. by eapply lookup_lt_Some. }
  (* the call of f1 *)
  destruct (Hq1 h5 _ _ _ Hh5) as (v1 & h6 & E6 & Hh6 & Hk6).
  pose proof (Hk6 _ _ Hr5) as Hr6.
  assert (sendEvent W o e params None h3
          = Ret [(VNull, VFun f3); (VNull, VFun f2); (VNull, VFun f1)] h6) as Esend.
  { unfold sendEvent. rewrite Hsend.
    replace (if decide (o ≠ Ember W) then ret () else ret ()) with (ret tt : M unit)
      by (by destruct (decide (o ≠ Ember W))).
    unfold bind at 1. cbn [ret]. unfold bind at 1. cbn [get_heap]. unfold bind at 1.
    rewrite (iterateSet_holds _ _ o e (length acts) [VNull] [Some (length rows)]) by done.
    cbn [length].
    erewrite iterate_targets_step; [|apply Hh3|done|done|done|exact Hr3].
    cbn [length nth_value lookup list_lookup default from_option id].
    unfold bind at 1.
    erewrite iterate_row_step by exact Hr3.
    cbn [nth_value lookup list_lookup default from_option id truthy].
    unfold bind at 1. unfold bind at 1. unfold invokeAction at 1.
    cbn [fst snd truthy]. unfold bind at 1. rewrite E4.
    cbn [ret fst snd app].
    erewrite iterate_row_step by exact Hr4.
    cbn [nth_value lookup list_lookup default from_option id truthy].
    unfold bind at 1. unfold bind at 1. unfold invokeAction at 1.
    cbn [fst snd truthy]. unfold bind at 1.
    rewrite Hbody. unfold bind at 1.
    rewrite (removeListener_method W o e He) by done. rewrite E5.
    cbn [ret fst snd app].
    erewrite iterate_row_step by exact Hr5.
    cbn [nth_value lookup list_lookup default from_option id truthy].
    unfold bind at 1. unfold bind at 1. unfold invokeAction at 1.
    cbn [fst snd truthy]. unfold bind at 1. rewrite E6.
    cbn [ret fst snd app iterate_row iterate_targets]. reflexivity. }
  split.
  - rewrite Esend. unfold bind. rewrite E4, Hbody. unfold bind.
    rewrite (removeListener_method W o e He) by done. rewrite E5. cbn [ret].
    by rewrite E6.
  - unfold after. rewrite Esend. cbn [heap_of].
    destruct (listed_one_row h6 VNull (length rows) _ Hr6) as [Hp Hl].
    destruct Hh6 as [Hent6 Ha6].
    rewrite (listenersFor_listed _ _ _ _ _ _ _ Hent6 Ha6 Hp). f_equal. exact Hl.
Qed.

Lemma sendEvent_reentrant_self_removal_witness :
  let W := recording_host 1 "e" 2 in
  let h3 := after (addListener W 1 "e" VNull (VFun 3))
              (after (addListener W 1 "e" VNull (VFun 2))
                 (after (addListener W 1 "e" VNull (VFun 1)) empty_heap)) in
  sendEvent W 1 "e" None None h3
  = (call W 3 (VObj 1) (default [] None) ;;
     call W 2 (VObj 1) (default [] None) ;;
     call W 1 (VObj 1) (default [] None) ;;
     ret [(VNull, VFun 3); (VNull, VFun 2); (VNull, VFun 1)]) h3
  ∧ listenersFor 1 "e" (after (sendEvent W 1 "e" None None) h3)
    = Ret [(VNull, VFun 3); (VNull, VFun 1)]
          (after (sendEvent W 1 "e" None None) h3).
Proof.
  apply (sendEvent_reentrant_self_removal (recording_host 1 "e" 2) 1 "e" 1 2 3
           None empty_heap).
  - split; [discriminate | split; reflexivity].
  - lia.
  - lia.
  - lia.
  - reflexivity.
  - reflexivity.
  - reflexivity.
  - exact I.
  - exact (recording_call_keeps_set 1 "e" 1 (VObj 1)).
  - exact (recording_call_keeps_set 1 "e" 3 (VObj 1)).
  - intros this args h'. reflexivity.
Defined.

(** ** Removal from a row that stays *)





(** ** Copy on write *)

Lemma addListener_register W o e t m h :
  addListener W o e t m h
  = (assert_event e ;;
     do a <- actionsFor o e;
     register_in a (shuffle t m).1 (shuffle t m).2 ;;
     match didAddListener W o with
     | Some hook => hook e (shuffle t m).1 (shuffle t m).2
     | None => ret tt
     end) h.
Proof.
  unfold addListener, register_in. destruct (shuffle t m) as [t' m']. cbn [fst snd].
  unfold bind. destruct (assert_event e h) as [u h0|]; [|done].
  destruct (actionsFor o e h0) as [a h1|]; [|done].
  by destruct (get_targets a h1).
Qed.

Lemma lookup_snoc_eq {A} (l : list A) (x : A) (n : nat) :
  length l = n → (l ++ [x]) !! n = Some x.
Proof. intros <-. apply lookup_snoc. Qed.

Lemma insert_snoc_eq {A} (l : list A) (x y : A) (n : nat) :
  length l = n → <[n := y]> (l ++ [x]) = l ++ [y].
Proof. intros <-. apply insert_snoc. Qed.

Lemma nth_row_Some ms i r : nth_row ms i = Some r → ms !! i = Some (Some r).
Proof.
  unfold nth_row. destruct (ms !! i) as [[r'|]|]; cbn; [|done|done].
  by intros [= ->].
Qed.

Lemma rows_of_app rows extra ms contents :
  rows_of rows ms = Some contents → rows_of (rows ++ extra) ms = Some contents.
Proof.
  unfold rows_of. rewrite !mapM_Some. intros H.
  eapply Forall2_impl; [exact H|].
  intros [r|] row; cbn; [|done]. apply lookup_app_l_Some.
Qed.

Lemma rows_of_seq rows contents :
  rows_of (rows ++ contents) (Some <$> seq (length rows) (length contents)) = Some contents.
Proof.
  unfold rows_of. apply mapM_Some. apply Forall2_same_length_lookup_2.
  - by rewrite length_fmap, length_seq.
  - intros i x y Hx Hy. rewrite list_lookup_fmap in Hx.
    destruct (seq (length rows) (length contents) !! i) as [k|] eqn:Hk; [|done].
    apply lookup_seq in Hk as [-> _]. injection Hx as <-. cbn.
    by rewrite lookup_app_len_add.
Qed.

Lemma set_rows_inv h a src ts ms s :
  h_acts h !! a = Some (Actions src (Some ts) (Some ms)) →
  set_rows h a = Some s →
  length ts = length ms
  ∧ ∃ contents, rows_of (h_rows h) ms = Some contents ∧ s = zip ts contents.
Proof.
  intros Ha. unfold set_rows. rewrite Ha.
  destruct (decide (length ts = length ms)) as [Hlen|]; [|done].
  split; [done|].
  destruct (rows_of (h_rows h) ms) as [contents|]; [|done].
  exists contents. split; [done|]. cbn in *. congruence.
Qed.

Lemma set_rows_intro h a src ts ms contents :
  h_acts h !! a = Some (Actions src (Some ts) (Some ms)) →
  length ts = length ms →
  rows_of (h_rows h) ms = Some contents →
  set_rows h a = Some (zip ts contents).
Proof.
  intros Ha Hlen Hc. unfold set_rows. rewrite Ha, decide_True by done.
  by rewrite Hc.
Qed.

Lemma rows_of_length rows ms contents :
  rows_of rows ms = Some contents → length contents = length ms.
Proof. unfold rows_of. rewrite mapM_Some. intros H. symmetry. by eapply Forall2_length. Qed.

Lemma listed_rows_of h ts ms contents :
  rows_of (h_rows h) ms = Some contents →
  listed h ts ms = set_listing (zip ts contents).
Proof.
  unfold rows_of. rewrite mapM_Some. intros H. revert ts.
  induction H as [|m row ms contents Hm H IH]; intros [|t ts]; try done.
  unfold listed, set_listing in *. cbn [zip_with fmap list_fmap mjoin list_join fst snd].
  rewrite Hm. f_equal. apply IH.
Qed.

Lemma rows_present_rows_of h ts ms contents :
  rows_of (h_rows h) ms = Some contents → length ts = length ms →
  rows_present h ts ms.
Proof.
  unfold rows_of. rewrite mapM_Some. intros H Hlen i Hi.
  destruct (lookup_lt_is_Some_2 ms i) as [m Hm]; [lia|].
  destruct (Forall2_lookup_l _ _ _ _ _ H Hm) as (row & _ & Hrow).
  destruct m as [r|]; [|done]. exists r, row. split; [|done].
  unfold nth_row. by rewrite Hm.
Qed.

Lemma copy_rows_exact ds acts meta :
  ∀ (ms : list (option loc)) (rows contents : list (list value)),
    rows_of rows ms = Some contents →
    copy_rows ms (Heap ds acts rows meta)
    = Ret (Some <$> seq (length rows) (length ms)) (Heap ds acts (rows ++ contents) meta).
Proof.
  induction ms as [|m ms IH]; intros rows contents Hc.
  - injection Hc as <-. by rewrite app_nil_r.
  - pose proof Hc as Hc'. unfold rows_of in Hc'. apply mapM_Some in Hc'.
    inversion Hc' as [|? row ? contents' Hm Hrest]; subst.
    destruct m as [r|]; [|done]. cbn in Hm.
    cbn [copy_rows]. unfold bind at 1. unfold read_row at 1. cbn [h_rows]. rewrite Hm.
    unfold bind at 1. cbn [alloc_row h_rows h_dirs h_acts h_meta].
    unfold bind at 1.
    rewrite (IH (rows ++ [row]) contents').
    + cbn [ret length seq fmap list_fmap]. rewrite length_app, <- app_assoc. cbn [length app].
      by rewrite Nat.add_1_r.
    + apply rows_of_app. unfold rows_of. by apply mapM_Some.
Qed.

Lemma set_add_zip_Some (ts : list value) (contents : list (list value)) t m (i : nat) ρ :
  indexOf t ts = Some i → contents !! i = Some ρ →
  set_add t m (zip ts contents)
  = zip ts (<[i := match indexOf m ρ with Some _ => ρ | None => ρ ++ [m] end]> contents).
Proof.
  revert contents i. induction ts as [|t0 ts IH]; intros contents i; [done|].
  cbn [indexOf]. destruct (decide (t0 = t)) as [->|Hne].
  - intros [= <-]. destruct contents as [|c contents]; [done|]. intros [= ->].
    cbn. by rewrite decide_True.
  - destruct (indexOf t ts) as [i'|] eqn:Hi; [|done]. intros [= <-].
    destruct contents as [|c contents]; [done|]. cbn [lookup list_lookup]. intros Hc.
    cbn. rewrite decide_False by done. f_equal. by apply IH.
Qed.

Lemma set_add_zip_None (ts : list value) (contents : list (list value)) t m :
  length ts = length contents → indexOf t ts = None →
  set_add t m (zip ts contents) = zip (ts ++ [t]) (contents ++ [[m]]).
Proof.
  revert contents. induction ts as [|t0 ts IH]; intros [|c contents] Hlen; try done.
  cbn [indexOf]. destruct (decide (t0 = t)) as [->|Hne]; [done|].
  destruct (indexOf t ts) as [i'|] eqn:Hi; [done|]. intros _.
  cbn. rewrite decide_False by done. f_equal. apply IH; [by injection Hlen | done].
Qed.

Lemma nth_row_seq (n k i : nat) :
  (i < k)%nat → nth_row (Some <$> seq n k) i = Some (n + i).
Proof.
  intros Hi. unfold nth_row. rewrite list_lookup_fmap, lookup_seq_lt by done. done.
Qed.

(** Registration in an actions object that was just copied: its rows are
    the last rows of the heap. *)
Lemma register_in_copy ds acts rows meta src (ts : list value)
    (contents : list (list value)) t m :
  length ts = length contents →
  ∃ ts' contents',
    register_in (length acts) t m
      (Heap ds (acts ++ [Actions src (Some ts)
                           (Some (Some <$> seq (length rows) (length contents)))])
            (rows ++ contents) meta)
    = Ret tt
        (Heap ds (acts ++ [Actions src (Some ts')
                             (Some (Some <$> seq (length rows) (length contents')))])
              (rows ++ contents') meta)
    ∧ length ts' = length contents'
    ∧ zip ts' contents' = set_add t m (zip ts contents).
Proof.
  intros Hlen. unfold register_in.
  destruct (indexOf t ts) as [i|] eqn:Hi.
  - assert (i < length contents)%nat as Hlt.
    { rewrite <- Hlen. eapply lookup_lt_Some. by apply indexOf_Some. }
    destruct (lookup_lt_is_Some_2 contents i Hlt) as [ρ Hρ].
    exists ts, (<[i := match indexOf m ρ with Some _ => ρ | None => ρ ++ [m] end]> contents).
    split; [|split].
    + js_unfold.
      repeat first [ progress js_beta | rewrite lookup_snoc | rewrite Hi
                   | rewrite nth_row_seq by done | rewrite lookup_app_len_add
                   | rewrite Hρ ].
      rewrite length_insert.
      destruct (indexOf m ρ) as [j|].
      * rewrite list_insert_id by done. reflexivity.
      * repeat first [ progress js_beta | rewrite lookup_app_len_add | rewrite Hρ
                     | rewrite insert_app_len_add ].
        reflexivity.
    + by rewrite length_insert.
    + symmetry. by apply set_add_zip_Some.
  - exists (ts ++ [t]), (contents ++ [[m]]). split; [|split].
    + js_unfold.
      repeat first [ progress js_beta | rewrite lookup_snoc | rewrite Hi
                   | rewrite insert_snoc ].
      rewrite !length_app. cbn [length]. rewrite seq_app, fmap_app.
      cbn [seq fmap list_fmap]. rewrite <- app_assoc. reflexivity.
    + rewrite !length_app. cbn. lia.
    + symmetry. by apply set_add_zip_None.
Qed.

(** [actionsFor] for an owner whose directory is another owner's and
    holds that owner's actions object for the event: the directory is
    forked, and the actions object is copied into a new one whose rows are
    new arrays with the contents of the rows copied. *)
Lemma actionsFor_fork_rows ds acts rows meta P C e a ts ms contents :
  C ≠ P →
  holds (Heap ds acts rows meta) P e a ts ms →
  meta !! C = meta !! P →
  rows_of rows ms = Some contents →
  ∃ ds',
    actionsFor C e (Heap ds acts rows meta)
    = Ret (length acts)
          (Heap ds' (acts ++ [Actions None (Some ts)
                                (Some (Some <$> seq (length rows) (length contents)))])
                (rows ++ contents) (<[C := length ds]> meta))
    ∧ entry ds' (<[C := length ds]> meta) P e a
    ∧ entry ds' (<[C := length ds]> meta) C e (length acts).
Proof.
  intros HCP [(d & Hm & Hd) Ha] Hshare Hrows. cbn [h_dirs h_meta h_acts h_rows] in *.
  destruct (dir_get_is_Some _ _ _ _ Hd) as [D HD].
  assert (d < length ds)%nat as Hlt by (by eapply lookup_lt_Some).
  rewrite Hm in Hshare.
  set (D1 := Dir (d_proto D) (d_source D) (assoc_set e (Some a) (d_events D))).
  set (meta' := <[C := length ds]> meta).
  pose proof (copy_rows_exact (<[d := D1]> ds ++ [Dir (Some d) (Some (VObj C)) []]) acts meta'
                ms rows contents Hrows) as E.
  rewrite <- (rows_of_length _ _ _ Hrows) in E.
  exists (<[d := D1]> ds ++ [Dir (Some d) (Some (VObj C)) [(e, Some (length acts))]]).
  split; [|split].
  - unfold actionsFor. js_unfold. js_auto.
    rewrite decide_False by congruence. js_auto.
    rewrite length_insert. fold D1. unfold meta' in E.
    match goal with
    | |- context [copy_rows ms ?H] =>
        match type of E with
        | _ = ?R => replace (copy_rows ms H) with R by (symmetry; exact E)
        end
    end.
    js_auto.
    rewrite (lookup_snoc_eq (<[d:=D1]> ds)) by apply length_insert. js_auto.
    rewrite (insert_snoc_eq (<[d:=D1]> ds)) by apply length_insert.
    cbn [assoc_set]. reflexivity.
  - exists d. split.
    + unfold meta'. rewrite lookup_insert_ne by done. done.
    + unfold dir_get. cbn [dir_get_fuel].
      rewrite lookup_app_l by (rewrite length_insert; lia).
      rewrite list_lookup_insert_eq by done. unfold D1. cbn [d_events].
      by rewrite assoc_get_set_eq.
  - exists (length ds). split.
    + unfold meta'. apply lookup_insert_eq.
    + rewrite <- (length_insert ds d D1). apply dir_get_snoc.
Qed.

(** X10: copy on write where it works.  An owner [C] whose directory is
    the directory of another owner [P], with the actions object of [P]
    for the event in it (aligned arrays, every row in the heap),
    registers its first listener on the event; [C] has no
    [didAddListener] hook.  The call returns
    normally; [C] gets a directory of its own and, in it, a new actions
    object whose arrays hold what the arrays of [P] held, row for row,
    with the new pair registered in them; [listenersFor] of [C] lists
    the pairs of that value.  The actions object of [P] and its rows are
    unchanged, and [listenersFor] of [P] answers what it answered
    before. *)
Theorem addListener_forks_shared_entry
    (W : host) (P C : nat) (e : string) (t m : value) (h : heap)
    (a : loc) (ts : list value) (ms : list (option loc))
    (s : list (value * list value)) :
  e ≠ "" →
  C ≠ P →
  didAddListener W C = None →
  holds h P e a ts ms →
  h_meta h !! C = h_meta h !! P →
  set_rows h a = Some s →
  ∃ h' a',
    addListener W C e t m h = Ret tt h'
    ∧ holds h' P e a ts ms
    ∧ set_rows h' a = Some s
    ∧ listenersFor P e h = Ret (set_listing s) h
    ∧ listenersFor P e h' = Ret (set_listing s) h'
    ∧ h_meta h' !! C ≠ h_meta h' !! P
    ∧ a' ≠ a
    ∧ entry (h_dirs h') (h_meta h') C e a'
    ∧ set_rows h' a' = Some (set_add (shuffle t m).1 (shuffle t m).2 s)
    ∧ listenersFor C e h'
      = Ret (set_listing (set_add (shuffle t m).1 (shuffle t m).2 s)) h'.
Proof.
  intros He HCP Hadd Hh Hshare Hs. destruct h as [ds acts rows meta].
  cbn [h_meta] in Hshare.
  pose proof Hh as [(d & Hm & Hd) Ha]. cbn [h_dirs h_meta h_acts] in Hm, Hd, Ha.
  destruct (set_rows_inv (Heap ds acts rows meta) a _ ts ms s Ha Hs) as (Hlen & contents & Hc & ->).
  cbn [h_rows] in Hc.
  pose proof (rows_of_length _ _ _ Hc) as Hlenc.
  destruct (actionsFor_fork_rows ds acts rows meta P C e a ts ms contents HCP Hh Hshare Hc)
    as (ds' & Eact & HentP & HentC).
  destruct (register_in_copy ds' acts rows (<[C := length ds]> meta) None ts contents
              (shuffle t m).1 (shuffle t m).2)
    as (ts' & contents' & Ereg & Hlen' & Hzip).
  { lia. }
  destruct (dir_get_is_Some _ _ _ _ Hd) as [D HD].
  assert (d < length ds)%nat as Hlt by (by eapply lookup_lt_Some).
  assert (a < length acts)%nat as Hlta by (by eapply lookup_lt_Some).
  set (A' := Actions None (Some ts') (Some (Some <$> seq (length rows) (length contents')))) in *.
  set (h' := Heap ds' (acts ++ [A']) (rows ++ contents') (<[C := length ds]> meta)).
  assert (h_acts h' !! a = Some (Actions (Some (VObj P)) (Some ts) (Some ms))) as Ha'.
  { by apply lookup_app_l_Some. }
  assert (rows_of (h_rows h') ms = Some contents) as Hc'.
  { by apply rows_of_app. }
  assert (h_acts h' !! length acts = Some A') as HaC by apply lookup_snoc.
  assert (rows_of (h_rows h') (Some <$> seq (length rows) (length contents')) = Some contents')
    as HcC by apply rows_of_seq.
  assert (length ts' = length (Some <$> seq (length rows) (length contents'))) as HlenC.
  { by rewrite length_fmap, length_seq. }
  exists h', (length acts).
  split; [|split; [|split; [|split; [|split; [|split; [|split; [|split; [|split]]]]]]]].
  - rewrite addListener_register, Hadd.
    unfold assert_event. rewrite decide_False by done.
    unfold bind at 1. cbn [ret]. unfold bind at 1. rewrite Eact.
    unfold bind at 1.
    match goal with
    | |- context [register_in ?x ?y ?z ?H] =>
        match type of Ereg with
        | _ = ?R => replace (register_in x y z H) with R by (symmetry; exact Ereg)
        end
    end.
    reflexivity.
  - by apply holds_heap.
  - by apply (set_rows_intro h' a (Some (VObj P)) ts ms contents).
  - destruct Hh as [Hent _].
    rewrite (listenersFor_listed (Heap ds acts rows meta) P e a (Some (VObj P)) ts ms Hent Ha);
      [| by eapply rows_present_rows_of].
    f_equal. by apply listed_rows_of.
  - rewrite (listenersFor_listed h' P e a (Some (VObj P)) ts ms HentP Ha');
      [| by eapply rows_present_rows_of].
    f_equal. by apply listed_rows_of.
  - cbn [h' h_meta]. rewrite lookup_insert_eq, lookup_insert_ne, Hm by done.
    intros [= Heq]. lia.
  - lia.
  - exact HentC.
  - rewrite <- Hzip.
    eapply (set_rows_intro h' (length acts) None ts' _ contents');
      [exact HaC | exact HlenC | exact HcC].
  - rewrite (listenersFor_listed h' C e (length acts) None ts' _ HentC HaC);
      [| eapply rows_present_rows_of; [exact HcC | exact HlenC]].
    f_equal. rewrite <- Hzip. apply listed_rows_of. exact HcC.
Qed.

Lemma addListener_forks_shared_entry_witness :
  holds shared_entry 1 "e" 0 [VObj 11] [Some 0]
  ∧ h_meta shared_entry !! 2 = h_meta shared_entry !! 1
  ∧ set_rows shared_entry 0 = Some [(VObj 11, [VFun 1])]
  ∧ ∃ h' a',
      addListener plain_host 2 "e" VNull (VFun 2) shared_entry = Ret tt h'
      ∧ holds h' 1 "e" 0 [VObj 11] [Some 0]
      ∧ set_rows h' 0 = Some [(VObj 11, [VFun 1])]
      ∧ listenersFor 1 "e" shared_entry
        = Ret (set_listing [(VObj 11, [VFun 1])]) shared_entry
      ∧ listenersFor 1 "e" h' = Ret (set_listing [(VObj 11, [VFun 1])]) h'
      ∧ h_meta h' !! 2 ≠ h_meta h' !! 1
      ∧ a' ≠ 0
      ∧ entry (h_dirs h') (h_meta h') 2 "e" a'
      ∧ set_rows h' a'
        = Some (set_add (shuffle VNull (VFun 2)).1 (shuffle VNull (VFun 2)).2
                  [(VObj 11, [VFun 1])])
      ∧ listenersFor 2 "e" h'
        = Ret (set_listing
                 (set_add (shuffle VNull (VFun 2)).1 (shuffle VNull (VFun 2)).2
                    [(VObj 11, [VFun 1])])) h'.
Proof.
  assert (holds shared_entry 1 "e" 0 [VObj 11] [Some 0]) as Hh.
  { split; [exists 0; split|]; vm_compute; reflexivity. }
  split; [exact Hh|]. split; [vm_compute; reflexivity|].
  split; [vm_compute; reflexivity|].
  apply (addListener_forks_shared_entry plain_host 1 2 "e" VNull (VFun 2) shared_entry
           0 [VObj 11] [Some 0] [(VObj 11, [VFun 1])]).
  - discriminate.
  - lia.
  - reflexivity.
  - exact Hh.
  - vm_compute; reflexivity.
  - vm_compute; reflexivity.
Defined.

(** ** Union *)

(** X11: [targetSetUnion] adds to the accumulator the pairs of the source
    that it does not hold yet, and nothing when it holds them all.  The
    event name is non-empty, other than [__ember_source__] and not a
    property name of [Object.prototype]; the source owner, which had no
    actions object for the event and has no [didAddListener] hook, has been given the pairs [(t1, m1)] and
    [(t2, m2)], and the accumulator holds [(t1, m1)].  After the union
    the arrays of the accumulator hold both pairs and nothing else, a
    second union leaves the heap as it is, and the arrays of the source
    are as they were. *)
Theorem targetSetUnion_merges_once
    (W : host) (P : nat) (e : string) (t1 m1 t2 m2 : value) (h : heap) :
  event_name e →
  didAddListener W P = None →
  truthy m1 = true → truthy m2 = true →
  (t1, m1) ≠ (t2, m2) →
  no_entry (h_dirs h) (h_meta h) P e →
  ∃ a acc h1 h2,
    let h0 := after (addListener W P e t2 m2) (after (addListener W P e t1 m1) h) in
    let both := set_add t2 m2 [(t1, [m1])] in
    targetSetFor P e h0 = Some a
    ∧ set_rows h0 a = Some both
    ∧ accumulator_with t1 m1 h0 = Ret acc h1
    ∧ set_rows h1 acc = Some [(t1, [m1])]
    ∧ targetSetUnion P e acc h1 = Ret tt h2
    ∧ set_rows h2 acc = Some both
    ∧ set_rows h2 a = Some both
    ∧ targetSetUnion P e acc h2 = Ret tt h2.
Proof.
  intros (He & Hs & _) Hadd Hm1 Hm2 Hpair Hno. destruct h as [ds acts rows meta].
  cbn [h_dirs h_meta] in Hno.
  destruct (decide (t1 = t2)) as [Ht|Ht].
  - assert (m1 ≠ m2) as Hm by congruence.
    destruct (two_pairs_heap_eq W P e t1 m1 t2 m2 He Hadd Hm1 Hm2 ds acts rows meta Ht Hm Hno)
      as (ds' & meta' & -> & Hent).
    subst t2.
    eexists _, _, _, _. cbn zeta.
    split; [by apply targetSetFor_entry|].
    split; [js_set; reflexivity|].
    split; [unfold accumulator_with; js_eval; reflexivity|].
    split; [js_set; reflexivity|].
    split.
    { unfold targetSetUnion. js_eval.
      erewrite targetSetFor_entry by (cbn [h_dirs h_meta]; exact Hent).
      unfold iterateSet. js_eval. reflexivity. }
    split; [js_set; reflexivity|].
    split; [js_set; reflexivity|].
    unfold targetSetUnion. js_eval.
    erewrite targetSetFor_entry by (cbn [h_dirs h_meta]; exact Hent).
    unfold iterateSet. js_eval. reflexivity.
  - destruct (two_pairs_heap_ne W P e t1 m1 t2 m2 He Hadd Hm1 Hm2 ds acts rows meta Ht Hno)
      as (ds' & meta' & -> & Hent).
    eexists _, _, _, _. cbn zeta.
    split; [by apply targetSetFor_entry|].
    split; [js_set; reflexivity|].
    split; [unfold accumulator_with; js_eval; reflexivity|].
    split; [js_set; reflexivity|].
    split.
    { unfold targetSetUnion. js_eval.
      erewrite targetSetFor_entry by (cbn [h_dirs h_meta]; exact Hent).
      unfold iterateSet. js_eval. reflexivity. }
    split; [js_set; reflexivity|].
    split; [js_set; reflexivity|].
    unfold targetSetUnion. js_eval.
    erewrite targetSetFor_entry by (cbn [h_dirs h_meta]; exact Hent).
    unfold iterateSet. js_eval. reflexivity.
Qed.

Lemma targetSetUnion_merges_once_witness :
  no_entry (h_dirs empty_heap) (h_meta empty_heap) 1 "e"
  ∧ ∃ a acc h1 h2,
      let h0 := after (addListener plain_host 1 "e" (VObj 12) (VFun 2))
                      (after (addListener plain_host 1 "e" (VObj 11) (VFun 1)) empty_heap) in
      let both := set_add (VObj 12) (VFun 2) [(VObj 11, [VFun 1])] in
      targetSetFor 1 "e" h0 = Some a
      ∧ set_rows h0 a = Some both
      ∧ accumulator_with (VObj 11) (VFun 1) h0 = Ret acc h1
      ∧ set_rows h1 acc = Some [(VObj 11, [VFun 1])]
      ∧ targetSetUnion 1 "e" acc h1 = Ret tt h2
      ∧ set_rows h2 acc = Some both
      ∧ set_rows h2 a = Some both
      ∧ targetSetUnion 1 "e" acc h2 = Ret tt h2.
Proof.
  split; [exact I|].
  apply (targetSetUnion_merges_once plain_host 1 "e" (VObj 11) (VFun 1) (VObj 12) (VFun 2)
           empty_heap).
  - split; [discriminate | split; reflexivity].
  - reflexivity.
  - reflexivity.
  - reflexivity.
  - discriminate.
  - exact I.
Defined.

(** X12: an accumulator without [targets] and [methods] is accepted.  The
    event name is non-empty, other than [__ember_source__] and not a
    property name of [Object.prototype]; the source owner, which had no
    actions object for the event and has no [didAddListener] hook, has been given the pairs [(t1, m1)] and
    [(t2, m2)].  [targetSetDiff] gives the accumulator the two arrays,
    and both the action set it returns and the accumulator hold exactly
    the pairs of the source, registered in the order in which
    [listenersFor] lists them: array for array, no target without row
    and no row without target. *)
Theorem targetSetDiff_into_empty_accumulator
    (W : host) (P : nat) (e : string) (t1 m1 t2 m2 : value) (h : heap) :
  event_name e →
  didAddListener W P = None →
  truthy m1 = true → truthy m2 = true →
  (t1, m1) ≠ (t2, m2) →
  no_entry (h_dirs h) (h_meta h) P e →
  ∃ acc h1 d h2,
    let h0 := after (addListener W P e t2 m2) (after (addListener W P e t1 m1) h) in
    let l := if decide (t1 = t2) then [(t2, m2); (t1, m1)] else [(t1, m1); (t2, m2)] in
    alloc_acts (Actions None None None) h0 = Ret acc h1
    ∧ listenersFor P e h0 = Ret l h0
    ∧ targetSetDiff P e acc h1 = Ret d h2
    ∧ set_rows h2 d = Some (set_of l)
    ∧ set_rows h2 acc = Some (set_of l).
Proof.
  intros (He & Hs & _) Hadd Hm1 Hm2 Hpair Hno. destruct h as [ds acts rows meta].
  cbn [h_dirs h_meta] in Hno.
  destruct (decide (t1 = t2)) as [Ht|Ht].
  - assert (m1 ≠ m2) as Hm by congruence.
    assert (m2 ≠ m1) as Hm' by congruence.
    destruct (two_pairs_heap_eq W P e t1 m1 t2 m2 He Hadd Hm1 Hm2 ds acts rows meta Ht Hm Hno)
      as (ds' & meta' & -> & Hent).
    subst t2.
    eexists _, _, _, _. cbn zeta.
    split; [js_eval; reflexivity|].
    split.
    { unfold listenersFor. js_eval.
      erewrite targetSetFor_entry by (cbn [h_dirs h_meta]; exact Hent).
      unfold iterateSet. js_eval. reflexivity. }
    split.
    { unfold targetSetDiff. js_eval.
      erewrite targetSetFor_entry by (cbn [h_dirs h_meta]; exact Hent).
      unfold iterateSet. js_eval. reflexivity. }
    split; js_set; reflexivity.
  - assert (t2 ≠ t1) as Ht' by congruence.
    destruct (two_pairs_heap_ne W P e t1 m1 t2 m2 He Hadd Hm1 Hm2 ds acts rows meta Ht Hno)
      as (ds' & meta' & -> & Hent).
    eexists _, _, _, _. cbn zeta.
    split; [js_eval; reflexivity|].
    split.
    { unfold listenersFor. js_eval.
      erewrite targetSetFor_entry by (cbn [h_dirs h_meta]; exact Hent).
      unfold iterateSet. js_eval. reflexivity. }
    split.
    { unfold targetSetDiff. js_eval.
      erewrite targetSetFor_entry by (cbn [h_dirs h_meta]; exact Hent).
      unfold iterateSet. js_eval. reflexivity. }
    split; js_set; reflexivity.
Qed.

Lemma targetSetDiff_into_empty_accumulator_witness :
  no_entry (h_dirs empty_heap) (h_meta empty_heap) 1 "e"
  ∧ ∃ acc h1 d h2,
      let h0 := after (addListener plain_host 1 "e" (VObj 12) (VFun 2))
                      (after (addListener plain_host 1 "e" (VObj 11) (VFun 1)) empty_heap) in
      let l := if decide (VObj 11 = VObj 12) then [(VObj 12, VFun 2); (VObj 11, VFun 1)]
               else [(VObj 11, VFun 1); (VObj 12, VFun 2)] in
      alloc_acts (Actions None None None) h0 = Ret acc h1
      ∧ listenersFor 1 "e" h0 = Ret l h0
      ∧ targetSetDiff 1 "e" acc h1 = Ret d h2
      ∧ set_rows h2 d = Some (set_of l)
      ∧ set_rows h2 acc = Some (set_of l).
Proof.
  split; [exact I|].
  apply (targetSetDiff_into_empty_accumulator plain_host 1 "e" (VObj 11) (VFun 1)
           (VObj 12) (VFun 2) empty_heap).
  - split; [discriminate | split; reflexivity].
  - reflexivity.
  - reflexivity.
  - reflexivity.
  - discriminate.
  - exact I.
Defined.

(** ** Edge cases of removal and suspension *)

(** X13: [removeListener] with a truthy method where there is nothing
    to remove.  The event name is non-empty, other
    than [__ember_source__] and not a property name of
    [Object.prototype], and the owner has no actions object for it yet
    (no directory, or a directory that resolves the name to nothing or to
    [null]).
    The owner has no [didRemoveListener] hook.  The call returns normally, no row
    changes and [listenersFor] is empty afterwards, but the call is not
    without effect: [actionsFor] creates the (empty) actions object, and
    the event is among the [watchedEvents] afterwards. *)
Theorem removeListener_without_listeners_creates_entry
    (W : host) (o : nat) (e : string) (t m : value) (h : heap) :
  event_name e →
  truthy m = true →
  didRemoveListener W o = None →
  no_entry (h_dirs h) (h_meta h) o e →
  ∃ h',
    removeListener W o e t m h = Ret tt h'
    ∧ h_rows h' = h_rows h
    ∧ listenersFor o e h' = Ret [] h'
    ∧ e ∈ watchedEvents o h'.
Proof.
  intros (He & Hs & _) Hm Hrem Hno. destruct h as [ds acts rows meta]. cbn [h_dirs h_meta] in Hno.
  destruct (actionsFor_no_entry ds acts rows meta o e Hno) as (ds1 & meta1 & Eact & Hent1).
  exists (Heap ds1 (acts ++ [Actions (Some (VObj o)) (Some []) (Some [])]) rows meta1).
  assert (holds (Heap ds1 (acts ++ [Actions (Some (VObj o)) (Some []) (Some [])]) rows meta1)
            o e (length acts) [] []) as Hh1.
  { apply holds_heap; [done | apply lookup_snoc]. }
  split; [|split; [reflexivity|split]].
  - rewrite (removeListener_method W o e He) by done.
    unfold _removeListener. rewrite Hrem.
    unfold bind at 1. unfold bind at 1. rewrite Eact.
    js_unfold. js_auto. cbn [indexOf mbind option_bind length].
    rewrite decide_True by done. js_auto. cbn [delete list_delete length].
    reflexivity.
  - by eapply listenersFor_no_targets.
  - by eapply watchedEvents_entry.
Qed.

Lemma removeListener_without_listeners_creates_entry_witness :
  no_entry (h_dirs empty_heap) (h_meta empty_heap) 1 "e"
  ∧ watchedEvents 1 empty_heap = []
  ∧ ∃ h',
      removeListener plain_host 1 "e" (VObj 11) (VFun 1) empty_heap = Ret tt h'
      ∧ h_rows h' = h_rows empty_heap
      ∧ listenersFor 1 "e" h' = Ret [] h'
      ∧ "e" ∈ watchedEvents 1 h'.
Proof.
  split; [exact I|]. split; [reflexivity|].
  apply (removeListener_without_listeners_creates_entry plain_host 1 "e" (VObj 11) (VFun 1)
           empty_heap).
  - split; [discriminate | split; reflexivity].
  - reflexivity.
  - reflexivity.
  - exact I.
Defined.



